(** * Student Result Management System: grading front end and result store

  A shallow embedding of the two parts of the repository that carry logic:

  - [src/frontend/src/App.tsx]: [computeGrade], [validateForm] and the
    callbacks of the component, with the mutations of
    [src/frontend/src/hooks/useQueries.ts] (TypeScript, run by a JavaScript
    engine);
  - [src/backend/main.mo]: the persistent actor with [addResult],
    [getResults], [deleteResult] and [clearAll] (Motoko).

  JavaScript numbers are IEEE-754 binary64 values; they are modelled with the
  Standard Library's [spec_float] at precision 53 and maximal exponent 1024.
  JavaScript strings are sequences of UTF-16 code units.  Motoko's [Nat] is
  an unbounded natural number ([N]), [Int] is [Z], [Float] is again binary64
  and [Text] is a string. *)

From Stdlib Require Import ZArith QArith Qabs Ascii String.
From Stdlib Require Import Floats.SpecFloat.
From stdpp Require Import gmap strings list sorting pretty.

Local Open Scope Z_scope.

(** ** JavaScript numbers *)

Module JS.

Definition prec : Z := 53.
Definition emax : Z := 1024.

Definition number : Type := spec_float.

(** The number denoted by an integer literal of the source. *)
Definition of_Z (n : Z) : number := binary_normalize prec emax n 0 false.

Definition NaN : number := S754_nan.

(** [a + b], [a / b], [a < b], [a > b], [a >= b], [a === b] on numbers. *)
Definition add (a b : number) : number := SFadd prec emax a b.
Definition div (a b : number) : number := SFdiv prec emax a b.
Definition lt (a b : number) : bool := SFltb a b.
Definition gt (a b : number) : bool := SFltb b a.
Definition ge (a b : number) : bool := SFleb b a.
Definition eqb (a b : number) : bool := SFeqb a b.

(** [Number.isNaN]. *)
Definition isNaN (x : number) : bool :=
  match x with S754_nan => true | _ => false end.

(** [Number.isInteger]: the argument is finite and has no fractional part. *)
Definition isInteger (x : number) : bool :=
  match x with
  | S754_zero _ => true
  | S754_finite _ m e =>
      if 0 <=? e then true else Z.eqb (Z.pos m mod 2 ^ (- e)) 0
  | S754_infinity _ | S754_nan => false
  end.

(** The rational value of a finite number. *)
Definition to_Q (x : number) : option Q :=
  match x with
  | S754_zero _ => Some 0%Q
  | S754_finite s m e =>
      let v := if 0 <=? e then inject_Z (Z.pos m * 2 ^ e)
               else (Z.pos m # Z.to_pos (2 ^ (- e)))%Q in
      Some (if s then Qopp v else v)
  | S754_infinity _ | S754_nan => None
  end.

(** Numbers in canonical form: the mantissa of a finite number has 53 bits,
    or fewer at the least exponent. The operations return such numbers. *)
Definition valid (x : number) : bool := valid_binary prec emax x.

(** Two numbers are the same datum ([Object.is]). *)
Definition same_number (x y : number) : bool :=
  match x, y with
  | S754_zero s, S754_zero s' => Bool.eqb s s'
  | S754_infinity s, S754_infinity s' => Bool.eqb s s'
  | S754_nan, S754_nan => true
  | S754_finite s m e, S754_finite s' m' e' =>
      Bool.eqb s s' && Pos.eqb m m' && Z.eqb e e'
  | _, _ => false
  end.

(** *** Strings *)

Definition code_unit : Type := N.
Definition jsstring : Type := list code_unit.

(** A literal of the source made of ASCII characters. *)
Fixpoint lit (s : string) : jsstring :=
  match s with
  | EmptyString => []
  | String c r => N_of_ascii c :: lit r
  end.

(** WhiteSpace and LineTerminator code points of ECMAScript. *)
Definition is_whitespace (c : code_unit) : bool :=
  bool_decide (c ∈ [9; 10; 11; 12; 13; 32; 160; 5760;
                    8192; 8193; 8194; 8195; 8196; 8197; 8198; 8199; 8200;
                    8201; 8202; 8232; 8233; 8239; 8287; 12288; 65279]%N).

Fixpoint trimStart (s : jsstring) : jsstring :=
  match s with
  | [] => []
  | c :: r => if is_whitespace c then trimStart r else s
  end.

Definition trimEnd (s : jsstring) : jsstring :=
  rev (trimStart (rev s)).

(** [String.prototype.trim]. *)
Definition trim (s : jsstring) : jsstring := trimEnd (trimStart s).

(** *** String to number conversion: [Number(s)] on a string

    StringToNumber of ECMAScript: white space is trimmed; what is left is
    nothing (the number 0), a literal with the prefix [0x], [0o] or [0b], or
    an optional sign before [Infinity] or a decimal literal with an optional
    fraction and an optional exponent. Anything else is [NaN]. The value of a
    literal is rounded to the nearest binary64 number, ties to even. *)

Definition digit_of (radix : Z) (c : code_unit) : option Z :=
  let c := Z.of_N c in
  let d := if (48 <=? c) && (c <=? 57) then Some (c - 48)
           else if (97 <=? c) && (c <=? 122) then Some (c - 87)
           else if (65 <=? c) && (c <=? 90) then Some (c - 55)
           else None in
  match d with
  | Some v => if v <? radix then Some v else None
  | None => None
  end.

(** The longest prefix of digits in the given radix, and what follows. *)
Fixpoint span_digits (radix : Z) (s : jsstring) : list Z * jsstring :=
  match s with
  | [] => ([], [])
  | c :: r =>
      match digit_of radix c with
      | Some d => let '(ds, rest) := span_digits radix r in (d :: ds, rest)
      | None => ([], s)
      end
  end.

Definition digits_value (radix : Z) (ds : list Z) : Z :=
  fold_left (fun acc d => acc * radix + d) ds 0.

(** The binary64 number nearest to [m * 10 ^ e], ties to even. *)
Definition round_decimal (neg : bool) (m e : Z) : number :=
  match m with
  | Z.pos p =>
      if 0 <=? e then binary_round prec emax neg (Z.to_pos (Z.pos p * 10 ^ e)) 0
      else SFdiv prec emax (S754_finite neg p 0)
                           (S754_finite false (Z.to_pos (10 ^ (- e))) 0)
  | _ => S754_zero neg
  end.

(** A sign, if there is one. *)
Definition split_sign (s : jsstring) : bool * jsstring :=
  match s with
  | 43%N :: r => (false, r)
  | 45%N :: r => (true, r)
  | _ => (false, s)
  end.

(** ExponentPart, or nothing. *)
Definition parse_exponent (s : jsstring) : option Z :=
  match s with
  | [] => Some 0
  | c :: r =>
      if bool_decide (c = 101%N) || bool_decide (c = 69%N) then
        let '(neg, r') := split_sign r in
        match span_digits 10 r' with
        | (d :: ds, []) =>
            let v := digits_value 10 (d :: ds) in
            Some (if neg then - v else v)
        | _ => None
        end
      else None
  end.

(** StrUnsignedDecimalLiteral other than [Infinity]. *)
Definition parse_unsigned_decimal (neg : bool) (s : jsstring) : number :=
  let '(ip, r1) := span_digits 10 s in
  let '(fp, r2) :=
    match r1 with
    | 46%N :: r => span_digits 10 r
    | _ => ([], r1)
    end in
  match ip, fp with
  | [], [] => NaN
  | _, _ =>
      match parse_exponent r2 with
      | Some e =>
          round_decimal neg (digits_value 10 (ip ++ fp))
                        (e - Z.of_nat (length fp))
      | None => NaN
      end
  end.

(** NonDecimalIntegerLiteral: [0x], [0o] and [0b] prefixes. *)
Definition parse_non_decimal (s : jsstring) : option number :=
  match s with
  | 48%N :: p :: r =>
      let radix :=
        if bool_decide (p = 120%N) || bool_decide (p = 88%N) then Some 16
        else if bool_decide (p = 111%N) || bool_decide (p = 79%N) then Some 8
        else if bool_decide (p = 98%N) || bool_decide (p = 66%N) then Some 2
        else None in
      match radix with
      | Some b =>
          Some match span_digits b r with
               | (d :: ds, []) => of_Z (digits_value b (d :: ds))
               | _ => NaN
               end
      | None => None
      end
  | _ => None
  end.

Definition Number (s : jsstring) : number :=
  match trim s with
  | [] => S754_zero false
  | t =>
      match parse_non_decimal t with
      | Some x => x
      | None =>
          let '(neg, u) := split_sign t in
          if bool_decide (u = lit "Infinity") then S754_infinity neg
          else parse_unsigned_decimal neg u
      end
  end.

(** [BigInt(x)] on a number: the integer that [x] is, and a [RangeError]
    ([None]) when [x] is not an integer. *)
Definition BigInt (x : number) : option Z :=
  match x with
  | S754_zero _ => Some 0
  | S754_finite s m e =>
      if isInteger x then
        let v := if 0 <=? e then Z.pos m * 2 ^ e else Z.pos m / 2 ^ (- e) in
        Some (if s then - v else v)
      else None
  | S754_infinity _ | S754_nan => None
  end.

#[global] Arguments of_Z : simpl never.
#[global] Arguments lit : simpl never.
#[global] Arguments Number : simpl never.
#[global] Arguments trim : simpl never.

End JS.

(** ** The front end: [src/frontend/src/App.tsx] *)

Module App.
Import JS.

Record SubjectField := {
  key : string;
  label : jsstring;
  icon : jsstring;
}.

Definition SUBJECTS : list SubjectField := [
  {| key := "maths"; label := lit "Mathematics";
     icon := [55357; 56528]%N |};
  {| key := "science"; label := lit "Science";
     icon := [55357; 56620]%N |};
  {| key := "english"; label := lit "English";
     icon := [55357; 56534]%N |};
  {| key := "tamil"; label := lit "Tamil";
     icon := [9997; 65039]%N |};
  {| key := "computerScience"; label := lit "Computer Science";
     icon := [55357; 56507]%N |}
].

Record FormValues := {
  studentName : jsstring;
  rollNumber : jsstring;
  maths : jsstring;
  science : jsstring;
  english : jsstring;
  tamil : jsstring;
  computerScience : jsstring;
}.

(** [values[key]]: a property that is not there reads as [undefined]. *)
Definition get (values : FormValues) (k : string) : option jsstring :=
  if bool_decide (k = "studentName") then Some (studentName values)
  else if bool_decide (k = "rollNumber") then Some (rollNumber values)
  else if bool_decide (k = "maths") then Some (maths values)
  else if bool_decide (k = "science") then Some (science values)
  else if bool_decide (k = "english") then Some (english values)
  else if bool_decide (k = "tamil") then Some (tamil values)
  else if bool_decide (k = "computerScience") then Some (computerScience values)
  else None.

(** [FormErrors]: an object that has a property only where a message was
    assigned. *)
Abbreviation FormErrors := (gmap string jsstring).

(** The [marks] object: its properties in insertion order. *)
Definition Marks : Type := list (string * number).

Definition Object_values (marks : Marks) : list number := marks.*2.

(** The object literal [{ maths: ..., science: ..., english: ..., tamil: ...,
    computerScience: ... }] of [handleCalculate]. *)
Definition marks_of (m1 m2 m3 m4 m5 : number) : Marks :=
  [("maths", m1); ("science", m2); ("english", m3); ("tamil", m4);
   ("computerScience", m5)].

Record CalculatedResult := {
  total : number;
  average : number;
  grade : jsstring;
  marks : Marks;
}.

Definition computeGrade (average : number) (marks : Marks) : jsstring :=
  let hasFailingSubject :=
    existsb (fun m => lt m (of_Z 35)) (Object_values marks) in
  if hasFailingSubject || lt average (of_Z 40) then lit "Fail"
  else if ge average (of_Z 80) then lit "A"
  else if ge average (of_Z 60) then lit "B"
  else lit "C".

(** The body of the loop of [validateForm] for one subject. *)
Definition validateSubject (values : FormValues) (errors : FormErrors)
    (s : SubjectField) : FormErrors :=
  match get values (key s) with
  | None => <[key s := label s ++ lit " marks required"]> errors
  | Some raw =>
      if bool_decide (raw = []) then
        <[key s := label s ++ lit " marks required"]> errors
      else
        let num := Number raw in
        if negb (isInteger num) || isNaN num then
          <[key s := lit "Enter a whole number"]> errors
        else if lt num (of_Z 0) || gt num (of_Z 100) then
          <[key s := lit "Marks must be 0" ++ [8211%N] ++ lit "100"]> errors
        else errors
  end.

(** The two tests of [validateForm] that come before the loop. *)
Definition validateNames (values : FormValues) : FormErrors :=
  let errors : FormErrors := ∅ in
  let errors :=
    if bool_decide (trim (studentName values) = []) then
      <["studentName" := lit "Student name is required"]> errors
    else errors in
  let errors :=
    if bool_decide (trim (rollNumber values) = []) then
      <["rollNumber" := lit "Roll number is required"]> errors
    else errors in
  errors.

Definition validateForm (values : FormValues) : FormErrors :=
  let errors := validateNames values in
  fold_left (validateSubject values) SUBJECTS errors.

(** The state of the component that [handleCalculate] reads and writes,
    and the notifications it raises. *)
Inductive Toast :=
| toast_error (msg : jsstring)
| toast_success (msg : jsstring).

Record State := {
  formValues : FormValues;
  errors : FormErrors;
  calculated : option CalculatedResult;
  toasts : list Toast;
}.

Definition setErrors (e : FormErrors) (st : State) : State :=
  {| formValues := formValues st; errors := e;
     calculated := calculated st; toasts := toasts st |}.

Definition setCalculated (c : option CalculatedResult) (st : State) : State :=
  {| formValues := formValues st; errors := errors st;
     calculated := c; toasts := toasts st |}.

Definition toast (t : Toast) (st : State) : State :=
  {| formValues := formValues st; errors := errors st;
     calculated := calculated st; toasts := toasts st ++ [t] |}.

Definition handleCalculate (st : State) : State :=
  let newErrors := validateForm (formValues st) in
  let st := setErrors newErrors st in
  if (0 <? size newErrors)%nat then
    toast (toast_error (lit "Please fix the errors before calculating")) st
  else
    let marks : Marks :=
      marks_of (Number (maths (formValues st)))
               (Number (science (formValues st)))
               (Number (english (formValues st)))
               (Number (tamil (formValues st)))
               (Number (computerScience (formValues st))) in
    let total := fold_left (fun a b => add a b) (Object_values marks) (of_Z 0) in
    let average := div total (of_Z 5) in
    let grade := computeGrade average marks in
    let st := setCalculated
                (Some {| total := total; average := average;
                         grade := grade; marks := marks |}) st in
    toast (toast_success (lit "Results calculated successfully!")) st.

End App.

(** ** The store: [src/backend/main.mo] *)

Module Backend.

(** Motoko's [Float] is IEEE-754 binary64 as well. *)
Abbreviation Float := spec_float.

Record StudentResult := {
  id : N;
  rollNumber : string;
  studentName : string;
  maths : N;
  science : N;
  english : N;
  tamil : N;
  computerScience : N;
  total : N;
  average : Float;
  grade : string;
  timestamp : Z;
}.

(** [StudentResult.compare]. *)
Definition compare (result1 result2 : StudentResult) : comparison :=
  N.compare (id result1) (id result2).

(** *** The parts of [mo:core] the actor uses

    [Map] is an ordered map: [values] iterates in ascending key order.
    [add] inserts or replaces, [remove] does nothing for a key that is not
    there. *)

Abbreviation Map := (gmap N StudentResult).

Definition key_le (a b : N * StudentResult) : Prop := (a.1 <= b.1)%N.

#[global] Instance key_le_dec a b : Decision (key_le a b) :=
  N.le_dec (a.1) (b.1).

Definition Map_values (m : Map) : list StudentResult :=
  (merge_sort key_le (map_to_list m)).*2.

Definition Map_containsKey (m : Map) (k : N) : bool :=
  bool_decide (is_Some (m !! k)).

(** [Array.sort] with the comparison of the element type. *)
Definition compare_le (a b : StudentResult) : Prop := compare a b ≠ Gt.

#[global] Instance compare_le_dec a b : Decision (compare_le a b).
Proof. unfold compare_le. apply _. Defined.

Definition sort (l : list StudentResult) : list StudentResult :=
  merge_sort compare_le l.

(** *** The actor

    Its state is the map [results] and the counter [nextId]. A call either
    returns a value and a new state, or traps; a trap discards every change
    the call made. *)

Record State := {
  results : Map;
  nextId : N;
}.

Definition init : State := {| results := ∅; nextId := 0 |}.

Inductive Outcome (A : Type) :=
| Ok (a : A) (st : State)
| Trap (msg : string).
Arguments Ok {A} a st.
Arguments Trap {A} msg.

Definition addResult (rollNumber studentName : string)
    (maths science english tamil computerScience total : N)
    (average : Float) (grade : string) (timestamp : Z)
    (st : State) : Outcome N :=
  let newResult := {|
    id := nextId st;
    rollNumber := rollNumber;
    studentName := studentName;
    maths := maths;
    science := science;
    english := english;
    tamil := tamil;
    computerScience := computerScience;
    total := total;
    average := average;
    grade := grade;
    timestamp := timestamp;
  |} in
  let st := {| results := <[nextId st := newResult]> (results st);
               nextId := nextId st |} in
  let st := {| results := results st; nextId := (nextId st + 1)%N |} in
  Ok (id newResult) st.

Definition getResults (st : State) : Outcome (list StudentResult) :=
  Ok (sort (Map_values (results st))) st.

Definition deleteResult (id : N) (st : State) : Outcome unit :=
  if negb (Map_containsKey (results st) id) then
    Trap "Result with id does not exist"
  else
    Ok tt {| results := delete id (results st); nextId := nextId st |}.

Definition clearAll (st : State) : Outcome unit :=
  let st := {| results := ∅; nextId := nextId st |} in
  let st := {| results := results st; nextId := 0 |} in
  Ok tt st.

(** *** Calls to the actor, one at a time *)

Inductive Call :=
| CallAddResult (rollNumber studentName : string)
    (maths science english tamil computerScience total : N)
    (average : Float) (grade : string) (timestamp : Z)
| CallGetResults
| CallDeleteResult (id : N)
| CallClearAll.

Inductive Reply :=
| ReplyNat (n : N)
| ReplyResults (l : list StudentResult)
| ReplyUnit
| Rejected (msg : string).

Definition commit {A} (st : State) (o : Outcome A) (r : A -> Reply)
    : State * Reply :=
  match o with
  | Ok a st' => (st', r a)
  | Trap msg => (st, Rejected msg)
  end.

Definition call (st : State) (c : Call) : State * Reply :=
  match c with
  | CallAddResult rn sn m s e t cs tot avg g ts =>
      commit st (addResult rn sn m s e t cs tot avg g ts st) ReplyNat
  | CallGetResults => commit st (getResults st) ReplyResults
  | CallDeleteResult i => commit st (deleteResult i st) (fun _ => ReplyUnit)
  | CallClearAll => commit st (clearAll st) (fun _ => ReplyUnit)
  end.

(** The state after a sequence of calls, and the replies in order. *)
Fixpoint run (st : State) (cs : list Call) : State * list Reply :=
  match cs with
  | [] => (st, [])
  | c :: cs' =>
      let '(st', r) := call st c in
      let '(st'', rs) := run st' cs' in
      (st'', r :: rs)
  end.

(** The ids that [addResult] calls returned, in order. *)
Definition assigned_ids (rs : list Reply) : list N :=
  omap (fun r => match r with ReplyNat n => Some n | _ => None end) rs.

Definition is_clearAll (c : Call) : bool :=
  match c with CallClearAll => true | _ => false end.

Definition is_addResult (c : Call) : bool :=
  match c with CallAddResult _ _ _ _ _ _ _ _ _ _ _ => true | _ => false end.

Definition is_getResults (c : Call) : bool :=
  match c with CallGetResults => true | _ => false end.

(** The number of [addResult] calls in a sequence of calls. *)
Definition count_adds (cs : list Call) : nat :=
  length (List.filter is_addResult cs).

(** A state the actor can be in: one reached from the start by calls. *)
Definition reachable (st : State) : Prop :=
  exists cs, (run init cs).1 = st.

End Backend.

(** ** The hooks: [src/frontend/src/hooks/useQueries.ts] *)

Module Queries.
Import JS.

(** What a [throw] carries. *)
Inductive Thrown :=
| Error (msg : jsstring)
| RangeError
| TypeError.

(** The [params] of the mutation of [useAddResult]. A mark is read from a
    property of an object with an index signature: it is [undefined]
    ([None]) when that property is not there. *)
Record AddParams := {
  rollNumber : jsstring;
  studentName : jsstring;
  maths : option number;
  science : option number;
  english : option number;
  tamil : option number;
  computerScience : option number;
  total : number;
  average : number;
  grade : jsstring;
}.

(** The arguments of [actor.addResult]: a [bigint] is an integer. *)
Record AddArgs := {
  arg_rollNumber : jsstring;
  arg_studentName : jsstring;
  arg_maths : Z;
  arg_science : Z;
  arg_english : Z;
  arg_tamil : Z;
  arg_computerScience : Z;
  arg_total : Z;
  arg_average : number;
  arg_grade : jsstring;
  arg_timestamp : Z;
}.

(** [BigInt(v)] on what a property read gives. *)
Definition toBigInt (v : option number) : Thrown + Z :=
  match v with
  | None => inl TypeError
  | Some x =>
      match BigInt x with
      | Some z => inr z
      | None => inl RangeError
      end
  end.

Definition bind {A B} (x : Thrown + A) (f : A -> Thrown + B) : Thrown + B :=
  match x with
  | inl t => inl t
  | inr a => f a
  end.

(** The [mutationFn] of [useAddResult], up to the call of the actor: what
    it throws, or the arguments it calls [actor.addResult] with. [actor]
    tells whether the actor is there, and [now] is [BigInt(Date.now())]. *)
Definition addResult_mutationFn (actor : bool) (now : Z) (params : AddParams)
    : Thrown + AddArgs :=
  if negb actor then inl (Error (lit "Actor not ready"))
  else
    let timestamp := now in
    bind (toBigInt (maths params)) (fun m =>
    bind (toBigInt (science params)) (fun s =>
    bind (toBigInt (english params)) (fun e =>
    bind (toBigInt (tamil params)) (fun t =>
    bind (toBigInt (computerScience params)) (fun cs =>
    bind (toBigInt (Some (total params))) (fun tot =>
    inr {| arg_rollNumber := rollNumber params;
           arg_studentName := studentName params;
           arg_maths := m; arg_science := s; arg_english := e;
           arg_tamil := t; arg_computerScience := cs; arg_total := tot;
           arg_average := average params; arg_grade := grade params;
           arg_timestamp := timestamp |})))))).

(** The [mutationFn] of [useDeleteResult], up to the call of the actor. *)
Definition deleteResult_mutationFn (actor : bool) (id : Z) : Thrown + Z :=
  if negb actor then inl (Error (lit "Actor not ready")) else inr id.

(** The [queryFn] of [useGetResults]; [fetch] is what [actor.getResults()]
    resolves to. *)
Definition getResults_queryFn {A} (actor : bool) (fetch : list A) : list A :=
  if negb actor then [] else fetch.

End Queries.

(** ** The rest of the component: [src/frontend/src/App.tsx] *)

Module Component.
Import JS App.

(** [keyof FormValues]. *)
Inductive Field :=
| field_studentName
| field_rollNumber
| field_maths
| field_science
| field_english
| field_tamil
| field_computerScience.

Definition field_key (f : Field) : string :=
  match f with
  | field_studentName => "studentName"
  | field_rollNumber => "rollNumber"
  | field_maths => "maths"
  | field_science => "science"
  | field_english => "english"
  | field_tamil => "tamil"
  | field_computerScience => "computerScience"
  end.

(** [{ ...prev, [field]: value }]. *)
Definition set (prev : FormValues) (f : Field) (value : jsstring) : FormValues :=
  match f with
  | field_studentName =>
      {| studentName := value; rollNumber := rollNumber prev;
         maths := maths prev; science := science prev; english := english prev;
         tamil := tamil prev; computerScience := computerScience prev |}
  | field_rollNumber =>
      {| studentName := studentName prev; rollNumber := value;
         maths := maths prev; science := science prev; english := english prev;
         tamil := tamil prev; computerScience := computerScience prev |}
  | field_maths =>
      {| studentName := studentName prev; rollNumber := rollNumber prev;
         maths := value; science := science prev; english := english prev;
         tamil := tamil prev; computerScience := computerScience prev |}
  | field_science =>
      {| studentName := studentName prev; rollNumber := rollNumber prev;
         maths := maths prev; science := value; english := english prev;
         tamil := tamil prev; computerScience := computerScience prev |}
  | field_english =>
      {| studentName := studentName prev; rollNumber := rollNumber prev;
         maths := maths prev; science := science prev; english := value;
         tamil := tamil prev; computerScience := computerScience prev |}
  | field_tamil =>
      {| studentName := studentName prev; rollNumber := rollNumber prev;
         maths := maths prev; science := science prev; english := english prev;
         tamil := value; computerScience := computerScience prev |}
  | field_computerScience =>
      {| studentName := studentName prev; rollNumber := rollNumber prev;
         maths := maths prev; science := science prev; english := english prev;
         tamil := tamil prev; computerScience := value |}
  end.

Definition setFormValues (v : FormValues) (st : State) : State :=
  {| formValues := v; errors := errors st;
     calculated := calculated st; toasts := toasts st |}.

(** The form of the first render, and of the reset after a record is added. *)
Definition emptyForm : FormValues :=
  {| studentName := []; rollNumber := []; maths := []; science := [];
     english := []; tamil := []; computerScience := [] |}.

(** [handleChange]. The component only reads properties of [errors]; a
    property set to [undefined] reads as one that is not there, and is
    modelled as removed. *)
Definition handleChange (field : Field) (value : jsstring) (st : State) : State :=
  let st' := setFormValues (set (formValues st) field value) st in
  let st' :=
    match errors st !! field_key field with
    | Some (_ :: _) => setErrors (delete (field_key field) (errors st')) st'
    | _ => st'
    end in
  setCalculated None st'.

(** *** The badges of a grade *)

(** The class that a lookup in [classMap] contributes. Besides its own four
    properties the object inherits those of [Object.prototype], which are
    not strings. *)
Inductive BadgeClass :=
| Class (name : jsstring)
| Inherited.

Definition Object_prototype_keys : list jsstring :=
  [lit "constructor"; lit "hasOwnProperty"; lit "isPrototypeOf";
   lit "propertyIsEnumerable"; lit "toLocaleString"; lit "toString";
   lit "valueOf"; lit "__proto__"; lit "__defineGetter__";
   lit "__defineSetter__"; lit "__lookupGetter__"; lit "__lookupSetter__"].

(** [classMap[grade] || "grade-badge-c"] of [GradeBadge]. *)
Definition GradeBadge_class (grade : jsstring) : BadgeClass :=
  if bool_decide (grade = lit "A") then Class (lit "grade-badge-a")
  else if bool_decide (grade = lit "B") then Class (lit "grade-badge-b")
  else if bool_decide (grade = lit "C") then Class (lit "grade-badge-c")
  else if bool_decide (grade = lit "Fail") then Class (lit "grade-badge-fail")
  else if bool_decide (grade ∈ Object_prototype_keys) then Inherited
  else Class (lit "grade-badge-c").

(** The class of the grade in the summary of a calculated result. *)
Definition summary_class (grade : jsstring) : jsstring :=
  if bool_decide (grade = lit "A") then lit "grade-badge-a"
  else if bool_decide (grade = lit "B") then lit "grade-badge-b"
  else if bool_decide (grade = lit "C") then lit "grade-badge-c"
  else lit "grade-badge-fail".

(** *** Adding and deleting records *)

(** The component state with the flag [isAdding]. *)
Record UI := {
  app : State;
  isAdding : bool;
}.

Definition initial : UI :=
  {| app := {| formValues := emptyForm; errors := ∅;
               calculated := None; toasts := [] |};
     isAdding := false |}.

(** [marks.maths] and the like: a property read. *)
Fixpoint property (k : string) (marks : Marks) : option number :=
  match marks with
  | [] => None
  | (k', x) :: rest => if bool_decide (k' = k) then Some x else property k rest
  end.

(** [handleAddToRecords] up to its [await]: nothing without a calculated
    result; otherwise the flag is set and [addResult] is called with these
    parameters. *)
Definition handleAddToRecords_call (ui : UI) : UI * option Queries.AddParams :=
  match calculated (app ui) with
  | None => (ui, None)
  | Some c =>
      ({| app := app ui; isAdding := true |},
       Some {| Queries.rollNumber := trim (rollNumber (formValues (app ui)));
               Queries.studentName := trim (studentName (formValues (app ui)));
               Queries.maths := property "maths" (marks c);
               Queries.science := property "science" (marks c);
               Queries.english := property "english" (marks c);
               Queries.tamil := property "tamil" (marks c);
               Queries.computerScience := property "computerScience" (marks c);
               Queries.total := total c;
               Queries.average := average c;
               Queries.grade := grade c |})
  end.

(** [handleAddToRecords] after its [await]: [ok] tells whether the call
    succeeded, and [captured] is the form at the time of the call. *)
Definition handleAddToRecords_settle (captured : FormValues) (ok : bool)
    (ui : UI) : UI :=
  let st := app ui in
  let st :=
    if ok then
      let st := toast (toast_success (lit "Record added for "
                                      ++ studentName captured ++ lit "!")) st in
      let st := setFormValues emptyForm st in
      let st := setCalculated None st in
      setErrors ∅ st
    else
      toast (toast_error (lit "Failed to add record. Please try again.")) st in
  {| app := st; isAdding := false |}.

(** [handleDelete] after its [await]. *)
Definition handleDelete_settle (ok : bool) (ui : UI) : UI :=
  {| app := toast (if ok then toast_success (lit "Record deleted")
                   else toast_error (lit "Failed to delete record")) (app ui);
     isAdding := isAdding ui |}.

(** What happens to the component, one event at a time. The settling of a
    call may come at any time after it. *)
Inductive Event :=
| Change (field : Field) (value : jsstring)
| Calculate
| AddCall
| AddSettle (captured : FormValues) (ok : bool)
| DeleteSettle (ok : bool).

Definition step (ui : UI) (ev : Event) : UI :=
  match ev with
  | Change f v => {| app := handleChange f v (app ui); isAdding := isAdding ui |}
  | Calculate => {| app := handleCalculate (app ui); isAdding := isAdding ui |}
  | AddCall => (handleAddToRecords_call ui).1
  | AddSettle captured ok => handleAddToRecords_settle captured ok ui
  | DeleteSettle ok => handleDelete_settle ok ui
  end.

Definition reachable (ui : UI) : Prop :=
  exists evs, fold_left step evs initial = ui.

End Component.

(** ** The vocabulary of the properties *)

Section vocabulary.
Import JS.

(** A mark field parses as an integer in [0,100]: the field is not empty and
    its conversion to a number is equal to an integer [m] with
    [0 <= m <= 100]. *)
Definition parses_as_mark (raw : jsstring) : Prop :=
  raw <> [] /\
  exists m : Z, 0 <= m <= 100 /\ eqb (Number raw) (of_Z m) = true.

(** The three tests that [validateForm] makes on the number of a field that
    is not empty. *)
Definition mark_accepted (num : number) : bool :=
  negb (negb (isInteger num) || isNaN num) &&
  negb (lt num (of_Z 0) || gt num (of_Z 100)).

(** The value of an average: the exact quotient [t / 5] rounded once to
    binary64, hence within a relative error of 2^-53 of it, and the exact
    quotient itself when 5 divides [t]. *)
Definition average_is_quotient (avg : number) (t : Z) : Prop :=
  exists q, to_Q avg = Some q /\
    (Qabs (q - (t # 5)) <= (t # 5) * (1 # 2 ^ 53))%Q /\
    (t mod 5 = 0 -> (q == t # 5)%Q).

(** A form whose fields pass validation, but for the field of mathematics,
    which is given; and the state of the component that holds it. *)
Definition sample_form (raw : jsstring) : App.FormValues :=
  {| App.studentName := lit "Arjun Kumar";
     App.rollNumber := lit "2024CS001";
     App.maths := raw;
     App.science := lit "90";
     App.english := lit "90";
     App.tamil := lit "90";
     App.computerScience := lit "90" |}.

Definition sample_state (raw : jsstring) : App.State :=
  {| App.formValues := sample_form raw; App.errors := ∅;
     App.calculated := None; App.toasts := [] |}.

End vocabulary.

Section store_vocabulary.
Import Backend.

(** Every key of [results] is below [nextId], and a record is stored under
    its own id. *)
Definition inv (st : State) : Prop :=
  forall k r, results st !! k = Some r -> id r = k /\ (k < nextId st)%N.

(** The id [i] is not in the store and the counter is beyond it. *)
Definition gone (i : N) (st : State) : Prop :=
  inv st /\ results st !! i = None /\ (i < nextId st)%N.

(** The keys of the store are the numbers below the counter. *)
Definition dense (st : State) : Prop :=
  forall k, is_Some (results st !! k) <-> (k < nextId st)%N.

(** A call of [addResult] to write examples with. *)
Definition sample_add : Call :=
  CallAddResult "2024CS001" "Arjun Kumar" 40 40 40 40 40 200
    (JS.of_Z 40) "C" 1762128000000.

(** A sequence of calls without [clearAll]: four records are added, and the
    second one is deleted on the way. *)
Definition sample_calls : list Call :=
  [sample_add; sample_add; CallDeleteResult 1; sample_add; CallGetResults;
   sample_add].

End store_vocabulary.

Section component_vocabulary.
Import JS App.

(** What [handleCalculate] stores for a form. *)
Definition calculation (v : FormValues) : CalculatedResult :=
  let ms := marks_of (Number (maths v)) (Number (science v))
                     (Number (english v)) (Number (tamil v))
                     (Number (computerScience v)) in
  let t := fold_left (fun a b => add a b) (Object_values ms) (of_Z 0) in
  {| total := t; average := div t (of_Z 5);
     grade := computeGrade (div t (of_Z 5)) ms; marks := ms |}.

(** The grades from worst to best. *)
Definition grade_rank (g : jsstring) : nat :=
  if bool_decide (g = lit "A") then 3
  else if bool_decide (g = lit "B") then 2
  else if bool_decide (g = lit "C") then 1
  else 0.

(** The decimal numeral of an integer. *)
Definition decimal (n : Z) : jsstring := lit (pretty n).

(** Every message is a string that is not empty. *)
Definition messages_nonempty (e : FormErrors) : Prop :=
  forall k msg, e !! k = Some msg -> msg <> [].

(** A text has no white space at either end. *)
Definition trimmed (s : jsstring) : Prop :=
  forall c, head s = Some c \/ last s = Some c -> is_whitespace c = false.

(** What holds in every state of the component: the messages are not
    empty, and a calculated result is the one of the form as it is now. *)
Definition component_inv (ui : Component.UI) : Prop :=
  messages_nonempty (errors (Component.app ui)) /\
  forall c, calculated (Component.app ui) = Some c ->
    validateForm (formValues (Component.app ui)) = ∅ /\
    c = calculation (formValues (Component.app ui)).

End component_vocabulary.

Section calls_vocabulary.
Import Backend.

(** The calls that delete the records of a list, one after the other. *)
Definition delete_calls (l : list StudentResult) : list Call :=
  (fun r => CallDeleteResult (id r)) <$> l.

Definition is_ReplyUnit (r : Reply) : bool :=
  match r with ReplyUnit => true | _ => false end.

(** The number of calls that returned without a value. *)
Definition count_units (rs : list Reply) : nat :=
  length (List.filter is_ReplyUnit rs).

(** A sequence of calls without the calls of [getResults]. *)
Definition updates (cs : list Call) : list Call :=
  List.filter (fun c => negb (is_getResults c)) cs.

End calls_vocabulary.

(** ** The words of the specification

    What the specification says of the fields of the form, written down
    without the conversions of the code: "empty after trimming whitespace"
    and "parse as an integer in the closed range [0,100]". *)

Module Spec.
Import JS.








End Spec.

(** * Properties *)

(** ** Rounding to binary64 yields numbers in canonical form *)

Section canonical.
Import JS.

Lemma fexp_eq e : fexp prec emax e = Z.max (e - 53) (-1074).
Proof. reflexivity. Qed.

Lemma digits2_pos_size p : digits2_pos p = Pos.size p.
Proof. induction p; simpl; congruence. Qed.

Lemma Zdigits2_nonneg m : 0 <= Zdigits2 m.
Proof. destruct m; simpl; lia. Qed.

Lemma Zdigits2_pos m : 0 < m -> 0 < Zdigits2 m.
Proof. destruct m; simpl; lia. Qed.

Lemma Zdigits2_bounds m :
  0 < m -> 2 ^ (Zdigits2 m - 1) <= m < 2 ^ Zdigits2 m.
Proof.
  destruct m as [|p|p]; try lia. intros _. simpl Zdigits2.
  rewrite digits2_pos_size.
  pose proof (Pos.size_gt p) as Hgt. pose proof (Pos.size_le p) as Hle.
  apply Pos2Z.pos_lt_pos in Hgt. apply Pos2Z.pos_le_pos in Hle.
  rewrite Pos2Z.inj_pow in Hgt, Hle.
  replace (Z.pos (Pos.size p)) with (Z.succ (Z.pos (Pos.size p) - 1)) in Hle at 1 by lia.
  rewrite Z.pow_succ_r in Hle by lia.
  change (Z.pos p~0) with (2 * Z.pos p) in Hle. lia.
Qed.

Lemma Zdigits2_unique m k :
  0 < m -> 2 ^ (k - 1) <= m < 2 ^ k -> Zdigits2 m = k.
Proof.
  intros Hm [Hlo Hhi]. pose proof (Zdigits2_bounds m Hm) as [Hlo' Hhi'].
  pose proof (Zdigits2_nonneg m).
  assert (0 <= k).
  { destruct (Z.lt_ge_cases k 0) as [Hk|]; [|assumption].
    rewrite (Z.pow_neg_r 2 k Hk) in Hhi. lia. }
  destruct (Z.lt_trichotomy (Zdigits2 m) k) as [Hlt|[Heq|Hgt]]; [|assumption|].
  - assert (2 ^ Zdigits2 m <= 2 ^ (k - 1)) by (apply Z.pow_le_mono_r; lia). lia.
  - assert (2 ^ k <= 2 ^ (Zdigits2 m - 1)) by (apply Z.pow_le_mono_r; lia). lia.
Qed.

Lemma Zdigits2_mono a b : 0 <= a <= b -> Zdigits2 a <= Zdigits2 b.
Proof.
  intros [Ha Hab]. destruct (Z.eq_dec a 0) as [->|Hne].
  { apply Zdigits2_nonneg. }
  pose proof (Zdigits2_bounds a ltac:(lia)) as [Hlo _].
  pose proof (Zdigits2_bounds b ltac:(lia)) as [_ Hhi].
  pose proof (Zdigits2_nonneg b).
  destruct (Z.le_gt_cases (Zdigits2 a) (Zdigits2 b)) as [|Hgt]; [assumption|].
  assert (2 ^ Zdigits2 b <= 2 ^ (Zdigits2 a - 1)) by (apply Z.pow_le_mono_r; lia).
  lia.
Qed.

Lemma shr_m_record m l : shr_m (shr_record_of_loc m l) = m.
Proof. destruct l as [|[]]; reflexivity. Qed.

Lemma shr_1_m mrs : 0 <= shr_m mrs -> shr_m (shr_1 mrs) = shr_m mrs / 2.
Proof.
  destruct mrs as [m r s]. simpl. intros Hm.
  destruct m as [|[p|p|]|p]; try lia; simpl shr_m.
  - reflexivity.
  - apply (Z.div_unique _ _ _ 1); lia.
  - apply (Z.div_unique _ _ _ 0); lia.
  - reflexivity.
Qed.

Lemma iter_shr_m p mrs :
  0 <= shr_m mrs ->
  shr_m (SpecFloat.iter_pos shr_1 p mrs) = shr_m mrs / 2 ^ Z.pos p.
Proof.
  revert mrs. induction p as [p IH|p IH|]; intros mrs Hm; simpl SpecFloat.iter_pos.
  - assert (H1 : 0 <= shr_m (shr_1 mrs)).
    { rewrite shr_1_m by assumption. apply Z.div_pos; lia. }
    assert (H2 : 0 <= shr_m (SpecFloat.iter_pos shr_1 p (shr_1 mrs))).
    { rewrite IH by assumption. apply Z.div_pos; [assumption|]. apply Z.pow_pos_nonneg; lia. }
    rewrite IH, IH, shr_1_m by assumption.
    rewrite !Z.div_div by (try apply Z.pow_pos_nonneg; lia).
    assert (E : 2 ^ Z.pos p~1 = 2 * (2 ^ Z.pos p * 2 ^ Z.pos p)).
    { replace (Z.pos p~1) with (1 + Z.pos p + Z.pos p) by lia.
      rewrite !Z.pow_add_r by lia. rewrite Z.pow_1_r. lia. }
    rewrite E. reflexivity.
  - assert (H2 : 0 <= shr_m (SpecFloat.iter_pos shr_1 p mrs)).
    { rewrite IH by assumption. apply Z.div_pos; [assumption|]. apply Z.pow_pos_nonneg; lia. }
    rewrite IH, IH by assumption.
    rewrite !Z.div_div by (try apply Z.pow_pos_nonneg; lia).
    assert (E : 2 ^ Z.pos p~0 = 2 ^ Z.pos p * 2 ^ Z.pos p).
    { replace (Z.pos p~0) with (Z.pos p + Z.pos p) by lia.
      rewrite !Z.pow_add_r by lia. reflexivity. }
    rewrite E. reflexivity.
  - rewrite shr_1_m by assumption. rewrite Z.pow_1_r. reflexivity.
Qed.

Lemma shr_fexp_spec m e l :
  0 <= m -> e <= fexp prec emax (Zdigits2 m + e) ->
  let m' := shr_m (fst (shr_fexp prec emax m e l)) in
  let e' := snd (shr_fexp prec emax m e l) in
  e' = fexp prec emax (Zdigits2 m + e) /\
  0 <= m' /\
  (0 < m' -> Zdigits2 m' + e' = Zdigits2 m + e) /\
  (m' = 0 -> Zdigits2 m + e <= e').
Proof.
  intros Hm He. unfold shr_fexp, shr.
  destruct (fexp prec emax (Zdigits2 m + e) - e) as [|p|p] eqn:Hn; cbn [fst snd]; cbv zeta.
  - rewrite shr_m_record. repeat split; try lia.
    intros ->. simpl. lia.
  - rewrite iter_shr_m by (rewrite shr_m_record; assumption).
    rewrite shr_m_record.
    assert (Hpow : 0 < 2 ^ Z.pos p) by (apply Z.pow_pos_nonneg; lia).
    split; [lia|]. split; [apply Z.div_pos; lia|]. split.
    + intros Hpos.
      assert (Hge : 2 ^ Z.pos p <= m).
      { destruct (Z.le_gt_cases (2 ^ Z.pos p) m); [assumption|].
        rewrite Z.div_small in Hpos by lia. lia. }
      pose proof (Zdigits2_bounds m ltac:(lia)) as [Hlo Hhi].
      assert (Hd : Z.pos p < Zdigits2 m).
      { apply (Z.pow_lt_mono_r_iff 2); [lia|apply Zdigits2_nonneg|lia]. }
      assert (Zdigits2 (m / 2 ^ Z.pos p) = Zdigits2 m - Z.pos p); [|lia].
      apply Zdigits2_unique; [assumption|]. split.
      * apply Z.div_le_lower_bound; [assumption|].
        rewrite <- Z.pow_add_r by lia.
        replace (Z.pos p + (Zdigits2 m - Z.pos p - 1)) with (Zdigits2 m - 1) by lia.
        assumption.
      * apply Z.div_lt_upper_bound; [assumption|].
        rewrite <- Z.pow_add_r by lia.
        replace (Z.pos p + (Zdigits2 m - Z.pos p)) with (Zdigits2 m) by lia.
        assumption.
    + intros H0. destruct (Z.eq_dec m 0) as [->|Hne]; [simpl; lia|].
      pose proof (Zdigits2_bounds m ltac:(lia)) as [Hlo Hhi].
      assert (Hlt : m < 2 ^ Z.pos p).
      { destruct (Z.le_gt_cases (2 ^ Z.pos p) m) as [Hle|]; [|lia].
        assert (1 <= m / 2 ^ Z.pos p); [|lia].
        apply Z.div_le_lower_bound; lia. }
      assert (Zdigits2 m - 1 < Z.pos p); [|lia].
      apply (Z.pow_lt_mono_r_iff 2); lia.
  - lia.
Qed.

Lemma round_nearest_even_bounds m l :
  m <= round_nearest_even m l <= m + 1.
Proof.
  unfold round_nearest_even. destruct l as [|[]]; try lia.
  destruct (Z.even m); lia.
Qed.

(** Rounding yields a number in canonical form. *)
Lemma binary_round_aux_valid s mx ex lx :
  0 <= mx -> ex <= fexp prec emax (Zdigits2 mx + ex) ->
  valid (binary_round_aux prec emax s mx ex lx) = true.
Proof.
  intros Hmx Hex. unfold binary_round_aux.
  pose proof (shr_fexp_spec mx ex lx Hmx Hex) as H1. cbv zeta in H1.
  destruct (shr_fexp prec emax mx ex lx) as [mrs' e'] eqn:E1. cbn [fst snd] in H1.
  destruct H1 as (He' & Hm' & Hpos' & Hzero').
  pose proof (round_nearest_even_bounds (shr_m mrs') (loc_of_shr_record mrs')) as Hr.
  set (m2 := round_nearest_even (shr_m mrs') (loc_of_shr_record mrs')) in *.
  assert (Hpre : e' <= fexp prec emax (Zdigits2 m2 + e')).
  { destruct (Z.eq_dec (shr_m mrs') 0) as [H0|Hne].
    - specialize (Hzero' H0). rewrite fexp_eq in *. lia.
    - pose proof (Zdigits2_mono (shr_m mrs') m2 ltac:(lia)).
      specialize (Hpos' ltac:(lia)). rewrite fexp_eq in *. lia. }
  pose proof (shr_fexp_spec m2 e' loc_Exact ltac:(lia) Hpre) as H2. cbv zeta in H2.
  destruct (shr_fexp prec emax m2 e' loc_Exact) as [mrs'' e''] eqn:E2.
  cbn [fst snd] in H2. destruct H2 as (He'' & Hm'' & Hpos'' & _).
  destruct (shr_m mrs'') as [|m|m] eqn:E3; try reflexivity.
  destruct (e'' <=? emax - prec) eqn:Hle; [|reflexivity].
  unfold valid, valid_binary, bounded, canonical_mantissa.
  rewrite Hle, andb_true_r. apply Z.eqb_eq.
  specialize (Hpos'' ltac:(lia)). simpl Zdigits2 in Hpos''.
  rewrite Hpos''. symmetry. exact He''.
Qed.

Lemma digits2_pos_iter_xO m d :
  Z.pos (digits2_pos (Pos.iter xO m d)) = Z.pos (digits2_pos m) + Z.pos d.
Proof.
  induction d as [|d IH] using Pos.peano_ind.
  - simpl. lia.
  - rewrite Pos.iter_succ. simpl digits2_pos. lia.
Qed.

Lemma binary_round_valid s mx ex :
  valid (binary_round prec emax s mx ex) = true.
Proof.
  unfold binary_round, shl_align.
  destruct (fexp prec emax (Z.pos (digits2_pos mx) + ex) - ex) as [|d|d] eqn:Hd;
    apply binary_round_aux_valid; try lia; simpl Zdigits2.
  - lia.
  - lia.
  - rewrite digits2_pos_iter_xO.
    replace (Z.pos (digits2_pos mx) + Z.pos d
             + fexp prec emax (Z.pos (digits2_pos mx) + ex))
      with (Z.pos (digits2_pos mx) + ex) by lia.
    lia.
Qed.

Lemma binary_normalize_valid m e sz :
  valid (binary_normalize prec emax m e sz) = true.
Proof. destruct m; simpl; [reflexivity| |]; apply binary_round_valid. Qed.

Lemma SFdiv_core_binary_spec m1 e1 m2 e2 :
  0 < m1 -> 0 < m2 ->
  let '(q, e', _) := SFdiv_core_binary prec emax m1 e1 m2 e2 in
  0 <= q /\ e' <= fexp prec emax (Zdigits2 q + e').
Proof.
  intros H1 H2. unfold SFdiv_core_binary.
  set (x := Zdigits2 m1 + e1 - (Zdigits2 m2 + e2)).
  set (e' := Z.min (fexp prec emax x) (e1 - e2)).
  set (s := e1 - e2 - e').
  assert (Hs : 0 <= s) by (unfold s, e'; lia).
  set (m' := match s with Z.pos _ => Z.shiftl m1 s | 0 => m1 | Z.neg _ => 0 end).
  assert (Hm' : m' = m1 * 2 ^ s).
  { unfold m'. destruct s as [|p|p]; [lia| |lia].
    rewrite Z.shiftl_mul_pow2 by lia. reflexivity. }
  pose proof (Z.div_eucl_eq m' m2 ltac:(lia)) as Hdiv.
  pose proof (Z.mod_pos_bound m' m2 H2) as Hmod.
  unfold Z.modulo in Hmod.
  destruct (Z.div_eucl m' m2) as [q r].
  assert (Hpow : 0 < 2 ^ s) by (apply Z.pow_pos_nonneg; lia).
  assert (Hq : 0 <= q) by nia.
  split; [exact Hq|].
  pose proof (Zdigits2_bounds m1 H1) as [Hlo1 Hhi1].
  pose proof (Zdigits2_bounds m2 H2) as [Hlo2 Hhi2].
  pose proof (Zdigits2_pos m1 H1). pose proof (Zdigits2_pos m2 H2).
  pose proof (Zdigits2_nonneg q) as Hdq.
  assert (Ex : x = Zdigits2 m1 + e1 - (Zdigits2 m2 + e2)) by reflexivity.
  assert (Ee : e' = Z.min (Z.max (x - 53) (-1074)) (e1 - e2)) by reflexivity.
  assert (Es : s = e1 - e2 - e') by reflexivity.
  clearbody m'. clearbody s. clearbody e'. clearbody x.
  rewrite fexp_eq.
  destruct (Z.le_gt_cases (x - e') 0) as [Hsmall|Hbig].
  - lia.
  - (* the quotient has at least x - e' digits *)
    set (k := Zdigits2 m1 + s - Zdigits2 m2 - 1).
    assert (Hk : 0 <= k) by (unfold k; lia).
    assert (Hqk : 2 ^ k <= q).
    { assert (Hm1 : 2 ^ (Zdigits2 m1 - 1 + s) <= m').
      { rewrite Hm', Z.pow_add_r by lia.
        apply Z.mul_le_mono_nonneg_r; lia. }
      assert (Hsplit : 2 ^ (Zdigits2 m1 - 1 + s) = 2 ^ k * 2 ^ Zdigits2 m2).
      { rewrite <- Z.pow_add_r by lia. f_equal. unfold k. lia. }
      assert (0 < 2 ^ k) by (apply Z.pow_pos_nonneg; lia).
      rewrite Hsplit in Hm1.
      destruct (Z.le_gt_cases (2 ^ k) q) as [|Hlt]; [assumption|exfalso].
      assert (m2 * q + r < m2 * 2 ^ k) by nia.
      assert (m2 * 2 ^ k <= 2 ^ k * 2 ^ Zdigits2 m2) by nia.
      lia. }
    assert (Hdk : k < Zdigits2 q).
    { pose proof (Zdigits2_bounds q) as Hb.
      assert (0 < 2 ^ k) by (apply Z.pow_pos_nonneg; lia).
      specialize (Hb ltac:(lia)).
      apply (Z.pow_lt_mono_r_iff 2); lia. }
    unfold k in *. lia.
Qed.

Lemma SFdiv_valid x y : valid (SFdiv prec emax x y) = true.
Proof.
  destruct x as [sx|sx| |sx mx ex], y as [sy|sy| |sy my ey]; try reflexivity.
  unfold SFdiv.
  pose proof (SFdiv_core_binary_spec (Z.pos mx) ex (Z.pos my) ey
                ltac:(lia) ltac:(lia)) as H.
  destruct (SFdiv_core_binary prec emax (Z.pos mx) ex (Z.pos my) ey) as [[q e'] l].
  destruct H as [Hq He]. apply binary_round_aux_valid; assumption.
Qed.

Lemma of_Z_valid n : valid (of_Z n) = true.
Proof. apply binary_normalize_valid. Qed.

Lemma round_decimal_valid neg m e : valid (round_decimal neg m e) = true.
Proof.
  unfold round_decimal. destruct m; try reflexivity.
  destruct (0 <=? e); [apply binary_round_valid | apply SFdiv_valid].
Qed.

Lemma parse_unsigned_decimal_valid neg s :
  valid (parse_unsigned_decimal neg s) = true.
Proof.
  unfold parse_unsigned_decimal.
  destruct (span_digits 10 s) as [ip r1].
  destruct (match r1 with
            | 46%N :: r => span_digits 10 r
            | _ => ([], r1)
            end) as [fp r2].
  destruct ip, fp; try reflexivity;
    destruct (parse_exponent r2); try reflexivity; apply round_decimal_valid.
Qed.

Lemma parse_non_decimal_valid s x :
  parse_non_decimal s = Some x -> valid x = true.
Proof.
  unfold parse_non_decimal. intros H.
  repeat case_match; simplify_eq; try reflexivity; apply of_Z_valid.
Qed.

(** The conversion of a string to a number is in canonical form. *)
Lemma Number_valid s : valid (Number s) = true.
Proof.
  unfold Number. destruct (trim s) as [|c t]; [reflexivity|].
  destruct (parse_non_decimal (c :: t)) as [x|] eqn:Hx.
  { apply (parse_non_decimal_valid _ _ Hx). }
  destruct (split_sign (c :: t)) as [neg u].
  case_bool_decide; [reflexivity|]. apply parse_unsigned_decimal_valid.
Qed.



End canonical.

(** ** Binary64 arithmetic on the numbers the form can produce *)

Section numbers.
Import JS.

Lemma same_number_eq x y : same_number x y = true -> x = y.
Proof.
  destruct x as [s|s| |s m e], y as [s'|s'| |s' m' e']; simpl; try discriminate;
    try (intros H; apply Bool.eqb_prop in H; congruence); try reflexivity.
  rewrite !andb_true_iff. intros [[Hs Hm] He].
  apply Bool.eqb_prop in Hs. apply Pos.eqb_eq in Hm. apply Z.eqb_eq in He.
  congruence.
Qed.

(** A property checked on every integer of a range holds on the range. *)
Lemma forallb_seqZ (P : Z -> bool) (lo len m : Z) :
  forallb P (seqZ lo len) = true -> lo <= m < lo + len -> P m = true.
Proof.
  intros Hall Hm. rewrite forallb_forall in Hall. apply Hall.
  apply list_elem_of_In, elem_of_seqZ. lia.
Qed.

(** Marks compare with 35 as the integers do. *)
Lemma lt_35_of_Z m : 0 <= m <= 100 -> lt (of_Z m) (of_Z 35) = (m <? 35).
Proof.
  intros Hm.
  apply Bool.eqb_prop.
  apply (forallb_seqZ (fun m => Bool.eqb (lt (of_Z m) (of_Z 35)) (m <? 35)) 0 101);
    [vm_compute; reflexivity | lia].
Qed.

(** Sums of marks are exact. *)
Lemma add_of_Z a b :
  0 <= a <= 400 -> 0 <= b <= 100 -> add (of_Z a) (of_Z b) = of_Z (a + b).
Proof.
  intros Ha Hb. apply same_number_eq.
  pose (P := fun a => forallb
    (fun b => same_number (add (of_Z a) (of_Z b)) (of_Z (a + b))) (seqZ 0 101)).
  assert (HP : P a = true).
  { apply (forallb_seqZ P 0 401); [vm_compute; reflexivity | lia]. }
  unfold P in HP.
  apply (forallb_seqZ _ 0 101 b HP). lia.
Qed.

(** Two numbers that compare equal are the same, or both are a zero. *)
Lemma SFeqb_true x y :
  SFeqb x y = true ->
  x = y \/ exists s s', x = S754_zero s /\ y = S754_zero s'.
Proof.
  unfold SFeqb, SFcompare.
  destruct x as [[]|[]| |[] m e], y as [[]|[]| |[] m' e'];
    try discriminate; eauto 6.
  - destruct (Z.compare_spec e e') as [He| |]; try discriminate.
    destruct (Pos.compare_cont Eq m m') eqn:Hm; try discriminate.
    apply Pcompare_Eq_eq in Hm. intros _. left. subst. reflexivity.
  - destruct (Z.compare_spec e e') as [He| |]; try discriminate.
    destruct (Pos.compare_cont Eq m m') eqn:Hm; try discriminate.
    apply Pcompare_Eq_eq in Hm. intros _. left. subst. reflexivity.
Qed.

Lemma eqb_of_Z x m :
  0 <= m <= 100 -> eqb x (of_Z m) = true ->
  x = of_Z m \/ (m = 0 /\ x = S754_zero true).
Proof.
  intros Hm Hx. apply SFeqb_true in Hx. destruct Hx as [Hx|(s & s' & Hx & Hm')].
  - auto.
  - assert (m = 0) as ->.
    { destruct (decide (m = 0)) as [|Hne]; [assumption|]. exfalso.
      assert (H : same_number (of_Z m) (S754_zero s') = false).
      { apply negb_true_iff.
        destruct s'.
        - apply (forallb_seqZ
            (fun m => negb (same_number (of_Z m) (S754_zero true))) 1 100);
            [vm_compute; reflexivity | lia].
        - apply (forallb_seqZ
            (fun m => negb (same_number (of_Z m) (S754_zero false))) 1 100);
            [vm_compute; reflexivity | lia]. }
      rewrite Hm' in H. destruct s'; discriminate. }
    destruct s; [right; auto | left; rewrite Hx; reflexivity].
Qed.

(** Adding a mark to a partial sum is exact, also when the mark is [-0]. *)
Lemma add_mark a b x :
  0 <= a <= 400 -> 0 <= b <= 100 -> eqb x (of_Z b) = true ->
  add (of_Z a) x = of_Z (a + b).
Proof.
  intros Ha Hb Hx. destruct (eqb_of_Z x b Hb Hx) as [->|[-> ->]].
  - apply add_of_Z; assumption.
  - rewrite Z.add_0_r. apply same_number_eq.
    apply (forallb_seqZ
      (fun a => same_number (add (of_Z a) (S754_zero true)) (of_Z a)) 0 401);
      [vm_compute; reflexivity | lia].
Qed.

(** The marks as numbers: a mark [v] is the mantissa [v * 2 ^ n] of 53 bits
    at the exponent [- n]. *)
Lemma of_Z_mark v n :
  1 <= v <= 100 -> 46 <= n <= 52 -> 2 ^ 52 <= v * 2 ^ n < 2 ^ 53 ->
  of_Z v = S754_finite false (Z.to_pos (v * 2 ^ n)) (- n).
Proof.
  intros Hv Hn Hm. apply same_number_eq.
  pose (P := fun v => forallb (fun n =>
    implb ((2 ^ 52 <=? v * 2 ^ n) && (v * 2 ^ n <? 2 ^ 53))
          (same_number (of_Z v) (S754_finite false (Z.to_pos (v * 2 ^ n)) (- n))))
    (seqZ 46 7)).
  assert (HP : P v = true).
  { apply (forallb_seqZ P 1 100); [vm_compute; reflexivity | lia]. }
  unfold P in HP. apply (forallb_seqZ _ 46 7 n) in HP; [|lia].
  cbv beta in HP. destruct Hm as [Hlo Hhi].
  apply Z.leb_le in Hlo. apply Z.ltb_lt in Hhi. rewrite Hlo, Hhi in HP.
  exact HP.
Qed.

Lemma eqb_of_Z_refl m : 0 <= m <= 100 -> eqb (of_Z m) (of_Z m) = true.
Proof.
  intros Hm.
  apply (forallb_seqZ (fun m => eqb (of_Z m) (of_Z m)) 0 101);
    [vm_compute; reflexivity | lia].
Qed.

Lemma mark_accepted_iff num :
  mark_accepted num = true <->
  isInteger num = true /\ lt num (of_Z 0) = false /\ gt num (of_Z 100) = false.
Proof.
  unfold mark_accepted.
  destruct (isInteger num) eqn:Hint; cbn [negb orb andb].
  - assert (HN : isNaN num = false) by (destruct num; simpl in *; congruence).
    rewrite HN. cbn [negb andb].
    destruct (lt num (of_Z 0)), (gt num (of_Z 100)); cbn; intuition congruence.
  - intuition congruence.
Qed.

(** A number in canonical form that passes the tests of [validateForm] is
    one of the integers 0, 1, ..., 100. *)
Lemma accepted_is_mark x :
  valid x = true -> mark_accepted x = true ->
  exists m, 0 <= m <= 100 /\ eqb x (of_Z m) = true.
Proof.
  intros Hvalid Hacc. apply mark_accepted_iff in Hacc.
  destruct Hacc as (Hint & Hlt & Hgt).
  destruct x as [s|s| |s m e]; try discriminate Hint.
  { exists 0. split; [lia|]. destruct s; reflexivity. }
  destruct s; [discriminate Hlt|]. clear Hlt.
  (* the comparison with 100 bounds the exponent *)
  change (of_Z 100) with (S754_finite false 7036874417766400 (-46)) in Hgt.
  unfold gt, SFltb, SFcompare in Hgt.
  assert (He : e <= -46 /\ (e = -46 -> Z.pos m <= 7036874417766400)).
  { clear Hvalid Hint.
    destruct (Z.compare_spec (-46) e) as [Heq|Hlt|Hlt];
      [|discriminate Hgt|split; [apply Z.lt_le_incl, Hlt|intros ->; apply Z.lt_irrefl in Hlt; contradiction]].
    split; [rewrite <- Heq; apply Z.le_refl|]. intros _.
    destruct (Pos.compare_cont Eq 7036874417766400 m) eqn:Hc;
      try discriminate Hgt; clear Hgt.
    - apply Pcompare_Eq_eq in Hc. subst m. apply Z.le_refl.
    - change ((7036874417766400 ?= m)%positive = Gt) in Hc.
      apply Pos.compare_gt_iff in Hc. apply Pos2Z.pos_lt_pos in Hc.
      apply Z.lt_le_incl. exact Hc. }
  clear Hgt. destruct He as [He Hm100].
  (* the number is an integer: its mantissa is a multiple of 2 ^ (- e) *)
  unfold isInteger in Hint.
  destruct (Z.leb_spec 0 e) as [|_]; [lia|]. apply Z.eqb_eq in Hint.
  set (n := - e) in *.
  assert (Hpow : 0 < 2 ^ n) by (apply Z.pow_pos_nonneg; lia).
  pose proof (Z.div_mod (Z.pos m) (2 ^ n) ltac:(lia)) as Hdiv.
  rewrite Hint, Z.add_0_r in Hdiv.
  set (v := Z.pos m / 2 ^ n) in *.
  assert (Hv : 1 <= v) by nia.
  (* canonical form: the mantissa has 53 bits *)
  unfold valid, valid_binary, bounded, canonical_mantissa in Hvalid.
  apply andb_true_iff in Hvalid. destruct Hvalid as [Hcan _].
  apply Z.eqb_eq in Hcan. rewrite fexp_eq in Hcan.
  pose proof (Zdigits2_bounds (Z.pos m) ltac:(lia)) as [Hlo Hhi].
  change (Zdigits2 (Z.pos m)) with (Z.pos (digits2_pos m)) in Hlo, Hhi.
  assert (Hn : n < Z.pos (digits2_pos m)).
  { apply (Z.pow_lt_mono_r_iff 2); [lia|lia|]. nia. }
  assert (Hd : Z.pos (digits2_pos m) = 53) by lia.
  rewrite Hd in Hlo, Hhi. change (53 - 1) with 52 in Hlo.
  assert (Hn' : 46 <= n <= 52) by lia.
  assert (Hv100 : v <= 100).
  { destruct (Z.eq_dec n 46) as [Hn46|Hn46].
    - rewrite Hn46 in Hdiv. change (2 ^ 46) with 70368744177664 in Hdiv.
      assert (Z.pos m <= 7036874417766400) by (apply Hm100; lia). lia.
    - assert (H47 : 2 ^ 47 <= 2 ^ n) by (apply Z.pow_le_mono_r; lia).
      change (2 ^ 47) with 140737488355328 in H47.
      change (2 ^ 53) with 9007199254740992 in Hhi. nia. }
  exists v. split; [lia|].
  assert (Hx : of_Z v = S754_finite false m e).
  { rewrite (of_Z_mark v n) by (rewrite 1?Z.mul_comm; lia || (rewrite Z.mul_comm, <- Hdiv; lia)).
    f_equal; [|unfold n; lia].
    rewrite Z.mul_comm, <- Hdiv. reflexivity. }
  rewrite <- Hx. apply eqb_of_Z_refl. lia.
Qed.

Lemma mark_is_accepted x m :
  0 <= m <= 100 -> eqb x (of_Z m) = true -> mark_accepted x = true.
Proof.
  intros Hm Hx. destruct (eqb_of_Z x m Hm Hx) as [->|[-> ->]].
  - apply (forallb_seqZ (fun m => mark_accepted (of_Z m)) 0 101);
      [vm_compute; reflexivity | lia].
  - reflexivity.
Qed.

(** The tests of [validateForm] accept a field that is not empty exactly when
    the field parses as an integer in [0,100]. *)
Lemma parses_as_mark_iff raw :
  parses_as_mark raw <-> raw <> [] /\ mark_accepted (Number raw) = true.
Proof.
  unfold parses_as_mark. split; intros [Hne H]; (split; [exact Hne|]).
  - destruct H as (m & Hm & Hx). exact (mark_is_accepted _ m Hm Hx).
  - apply accepted_is_mark; [apply Number_valid|exact H].
Qed.





End numbers.

(** ** computeGrade *)

Section grading.
Import JS App.

(** The average compares with the thresholds as the exact quotient does. *)
Lemma average_thresholds t :
  0 <= t <= 500 ->
  lt (div (of_Z t) (of_Z 5)) (of_Z 40) = (t <? 200) /\
  ge (div (of_Z t) (of_Z 5)) (of_Z 80) = (400 <=? t) /\
  ge (div (of_Z t) (of_Z 5)) (of_Z 60) = (300 <=? t).
Proof.
  intros Ht.
  pose (P := fun t =>
    let a := div (of_Z t) (of_Z 5) in
    Bool.eqb (lt a (of_Z 40)) (t <? 200) &&
    Bool.eqb (ge a (of_Z 80)) (400 <=? t) &&
    Bool.eqb (ge a (of_Z 60)) (300 <=? t)).
  assert (HP : P t = true).
  { apply (forallb_seqZ P 0 501); [vm_compute; reflexivity | lia]. }
  unfold P in HP. cbv zeta in HP.
  rewrite !andb_true_iff in HP. destruct HP as [[H1 H2] H3].
  apply Bool.eqb_prop in H1, H2, H3. auto.
Qed.

Lemma hasFailingSubject_of_Z m1 m2 m3 m4 m5 :
  0 <= m1 <= 100 -> 0 <= m2 <= 100 -> 0 <= m3 <= 100 ->
  0 <= m4 <= 100 -> 0 <= m5 <= 100 ->
  existsb (fun m => lt m (of_Z 35))
    (Object_values (marks_of (of_Z m1) (of_Z m2) (of_Z m3) (of_Z m4) (of_Z m5)))
  = (m1 <? 35) || (m2 <? 35) || (m3 <? 35) || (m4 <? 35) || (m5 <? 35).
Proof.
  intros H1 H2 H3 H4 H5. simpl.
  rewrite !lt_35_of_Z by assumption.
  rewrite orb_false_r, !orb_assoc. reflexivity.
Qed.

(** C1. Whatever the average is, five integer marks in [0,100] of which at
    least one is below 35 are graded "Fail": the test of the failing subject
    comes before the thresholds of the average. *)
Theorem computeGrade_failing_subject (average : number) (m1 m2 m3 m4 m5 : Z) :
  0 <= m1 <= 100 -> 0 <= m2 <= 100 -> 0 <= m3 <= 100 ->
  0 <= m4 <= 100 -> 0 <= m5 <= 100 ->
  m1 < 35 \/ m2 < 35 \/ m3 < 35 \/ m4 < 35 \/ m5 < 35 ->
  computeGrade average
    (marks_of (of_Z m1) (of_Z m2) (of_Z m3) (of_Z m4) (of_Z m5)) = lit "Fail".
Proof.
  intros H1 H2 H3 H4 H5 Hfail. unfold computeGrade.
  rewrite hasFailingSubject_of_Z by assumption.
  assert (Hb : (m1 <? 35) || (m2 <? 35) || (m3 <? 35) || (m4 <? 35) || (m5 <? 35)
               = true).
  { rewrite !orb_true_iff, !Z.ltb_lt. tauto. }
  rewrite Hb. reflexivity.
Qed.

Lemma computeGrade_failing_subject_witness :
  computeGrade (of_Z 100)
    (marks_of (of_Z 34) (of_Z 100) (of_Z 100) (of_Z 100) (of_Z 100))
  = lit "Fail".
Proof.
  apply (computeGrade_failing_subject (of_Z 100) 34 100 100 100 100); lia.
Defined.

(** The grade of five passing marks is a function of their sum. *)
Lemma computeGrade_of_total m1 m2 m3 m4 m5 :
  35 <= m1 <= 100 -> 35 <= m2 <= 100 -> 35 <= m3 <= 100 ->
  35 <= m4 <= 100 -> 35 <= m5 <= 100 ->
  let t := m1 + m2 + m3 + m4 + m5 in
  computeGrade (div (of_Z t) (of_Z 5))
    (marks_of (of_Z m1) (of_Z m2) (of_Z m3) (of_Z m4) (of_Z m5))
  = if t <? 200 then lit "Fail"
    else if 400 <=? t then lit "A"
    else if 300 <=? t then lit "B"
    else lit "C".
Proof.
  intros H1 H2 H3 H4 H5 t. unfold computeGrade.
  rewrite hasFailingSubject_of_Z by lia.
  destruct (average_thresholds t) as (Hlt & Hge80 & Hge60); [unfold t; lia|].
  rewrite Hlt, Hge80, Hge60.
  replace (m1 <? 35) with false by (symmetry; apply Z.ltb_ge; lia).
  replace (m2 <? 35) with false by (symmetry; apply Z.ltb_ge; lia).
  replace (m3 <? 35) with false by (symmetry; apply Z.ltb_ge; lia).
  replace (m4 <? 35) with false by (symmetry; apply Z.ltb_ge; lia).
  replace (m5 <? 35) with false by (symmetry; apply Z.ltb_ge; lia).
  reflexivity.
Qed.

(** C2. For five integer marks, each in [35,100], with the average total / 5
    as [handleCalculate] computes it: the grade is "A" when the exact average
    is at least 80, "B" when it is in [60,80), "C" when it is in [40,60) and
    "Fail" when it is below 40; five marks of 40 are graded "C". *)
Theorem computeGrade_thresholds (m1 m2 m3 m4 m5 : Z) :
  35 <= m1 <= 100 -> 35 <= m2 <= 100 -> 35 <= m3 <= 100 ->
  35 <= m4 <= 100 -> 35 <= m5 <= 100 ->
  let t := m1 + m2 + m3 + m4 + m5 in
  let g := computeGrade (div (of_Z t) (of_Z 5))
             (marks_of (of_Z m1) (of_Z m2) (of_Z m3) (of_Z m4) (of_Z m5)) in
  ((80 <= t # 5)%Q -> g = lit "A") /\
  ((60 <= t # 5)%Q /\ (t # 5 < 80)%Q -> g = lit "B") /\
  ((40 <= t # 5)%Q /\ (t # 5 < 60)%Q -> g = lit "C") /\
  ((t # 5 < 40)%Q -> g = lit "Fail") /\
  computeGrade (div (of_Z 200) (of_Z 5))
    (marks_of (of_Z 40) (of_Z 40) (of_Z 40) (of_Z 40) (of_Z 40)) = lit "C".
Proof.
  intros H1 H2 H3 H4 H5 t g.
  assert (Hg := computeGrade_of_total m1 m2 m3 m4 m5 H1 H2 H3 H4 H5).
  cbv zeta in Hg. fold t in Hg. fold g in Hg.
  unfold Qle, Qlt. simpl Qnum. simpl Qden.
  split; [|split; [|split; [|split]]].
  - intros H. rewrite Hg.
    destruct (Z.ltb_spec t 200); [lia|].
    destruct (Z.leb_spec 400 t); [reflexivity | lia].
  - intros [Ha Hb]. rewrite Hg.
    destruct (Z.ltb_spec t 200); [lia|].
    destruct (Z.leb_spec 400 t); [lia|].
    destruct (Z.leb_spec 300 t); [reflexivity | lia].
  - intros [Ha Hb]. rewrite Hg.
    destruct (Z.ltb_spec t 200); [lia|].
    destruct (Z.leb_spec 400 t); [lia|].
    destruct (Z.leb_spec 300 t); [lia | reflexivity].
  - intros H. rewrite Hg.
    destruct (Z.ltb_spec t 200); [reflexivity | lia].
  - vm_compute. reflexivity.
Qed.

Lemma computeGrade_thresholds_witness :
  computeGrade (div (of_Z 200) (of_Z 5))
    (marks_of (of_Z 40) (of_Z 40) (of_Z 40) (of_Z 40) (of_Z 40)) = lit "C".
Proof.
  assert (H : 35 <= 40 <= 100) by lia.
  destruct (computeGrade_thresholds 40 40 40 40 40 H H H H H) as (_ & _ & HC & _).
  apply HC. split; unfold Qle, Qlt; simpl; lia.
Defined.

End grading.

(** ** validateForm and handleCalculate *)

Section validation.
Import JS App.

Lemma validateSubject_other v (errs : FormErrors) s k :
  k <> key s -> validateSubject v errs s !! k = errs !! k.
Proof.
  intros Hk. unfold validateSubject.
  repeat case_match; rewrite ?lookup_insert_ne by congruence; reflexivity.
Qed.

Lemma validateSubject_self v (errs : FormErrors) s raw :
  get v (key s) = Some raw ->
  errs !! key s = None ->
  is_Some (validateSubject v errs s !! key s) <-> ~ parses_as_mark raw.
Proof.
  intros Hget Hnone. rewrite parses_as_mark_iff.
  unfold validateSubject, mark_accepted. rewrite Hget.
  case_bool_decide as Hraw.
  { rewrite lookup_insert_eq. split; [tauto | eauto]. }
  destruct (negb (isInteger (Number raw)) || isNaN (Number raw)); cbn [negb andb].
  { rewrite lookup_insert_eq. split; [|eauto]. intros _ [_ H]. discriminate. }
  destruct (lt (Number raw) (of_Z 0) || gt (Number raw) (of_Z 100)); cbn [negb].
  { rewrite lookup_insert_eq. split; [|eauto]. intros _ [_ H]. discriminate. }
  rewrite Hnone. split.
  - intros [? ?]. discriminate.
  - intros H. exfalso. apply H. auto.
Qed.

Lemma validateForm_unfold v :
  validateForm v = fold_left (validateSubject v) SUBJECTS (validateNames v).
Proof. reflexivity. Qed.

Lemma validateNames_lookup v k :
  validateNames v !! k =
    if bool_decide (k = "rollNumber") then
      if bool_decide (trim (rollNumber v) = []) then
        Some (lit "Roll number is required") else None
    else if bool_decide (k = "studentName") then
      if bool_decide (trim (studentName v) = []) then
        Some (lit "Student name is required") else None
    else None.
Proof.
  unfold validateNames.
  repeat case_bool_decide; subst;
    rewrite ?lookup_insert_eq, ?lookup_insert_ne, ?lookup_empty by congruence;
    try reflexivity; congruence.
Qed.


(** What [validateForm] reports for one subject. *)
Lemma validateForm_subject v s raw :
  s ∈ SUBJECTS -> get v (key s) = Some raw ->
  is_Some (validateForm v !! key s) <-> ~ parses_as_mark raw.
Proof.
  intros Hs Hget. rewrite validateForm_unfold.
  unfold SUBJECTS in *. simpl fold_left.
  rewrite !elem_of_cons, elem_of_nil in Hs.
  destruct Hs as [->|[->|[->|[->|[->|[]]]]]]; simpl key in *;
    rewrite ?(validateSubject_other _ _ _ _) by (simpl; discriminate);
    (etrans; [eapply validateSubject_self; [exact Hget|]|reflexivity]);
    rewrite ?validateSubject_other by (simpl; discriminate);
    rewrite validateNames_lookup; reflexivity.
Qed.

Lemma validateForm_names v k :
  k = "studentName" \/ k = "rollNumber" ->
  validateForm v !! k = validateNames v !! k.
Proof.
  intros Hk. rewrite validateForm_unfold. unfold SUBJECTS. simpl fold_left.
  rewrite !validateSubject_other by (simpl; destruct Hk; subst; discriminate).
  reflexivity.
Qed.

Lemma trimStart_nil_iff s : trimStart s = [] <-> forallb is_whitespace s = true.
Proof.
  induction s as [|c r IH]; simpl; [tauto|].
  destruct (is_whitespace c); simpl; [exact IH|]. split; discriminate.
Qed.

(** A text is empty after trimming exactly when it consists of white space. *)
Lemma trim_nil_iff s : trim s = [] <-> forallb is_whitespace s = true.
Proof.
  unfold trim, trimEnd. split.
  - intros H. apply (f_equal (@rev _)) in H. rewrite rev_involutive in H.
    simpl in H. apply trimStart_nil_iff in H.
    rewrite forallb_forall in H.
    destruct (forallb is_whitespace s) eqn:Hs; [reflexivity|].
    exfalso. destruct (trimStart s) as [|c r] eqn:Ht.
    + apply trimStart_nil_iff in Ht. congruence.
    + assert (Hc : is_whitespace c = true).
      { apply H. rewrite <- in_rev. left. reflexivity. }
      clear H Hs. induction s as [|d s IH]; simpl in Ht; [discriminate|].
      destruct (is_whitespace d) eqn:Hd; [auto|]. congruence.
  - intros H. apply trimStart_nil_iff in H. rewrite H. reflexivity.
Qed.


(** What [validateForm] makes of some fields. The conversion is that of
    [Number]: an exponent, a prefix [0x], white space around the digits and a
    field of white space only (which converts to 0) are accepted; the empty
    field is reported though it converts to 0 as well. *)
Lemma validateForm_examples :
  validateForm (sample_form (lit "100")) = ∅ /\
  validateForm (sample_form (lit "1e2")) = ∅ /\
  validateForm (sample_form (lit "0x10")) = ∅ /\
  validateForm (sample_form (lit " 7 ")) = ∅ /\
  validateForm (sample_form (lit "-0")) = ∅ /\
  validateForm (sample_form (lit " ")) = ∅ /\
  validateForm (sample_form [])
    = {["maths" := lit "Mathematics marks required"]} /\
  validateForm (sample_form (lit "4.5"))
    = {["maths" := lit "Enter a whole number"]} /\
  validateForm (sample_form (lit "abc"))
    = {["maths" := lit "Enter a whole number"]} /\
  validateForm (sample_form (lit "Infinity"))
    = {["maths" := lit "Enter a whole number"]} /\
  validateForm (sample_form (lit "101"))
    = {["maths" := lit "Marks must be 0" ++ [8211%N] ++ lit "100"]} /\
  validateForm (sample_form (lit "-1"))
    = {["maths" := lit "Marks must be 0" ++ [8211%N] ++ lit "100"]}.
Proof. repeat split; vm_compute; reflexivity. Qed.

(** The mark fields of a form that passes validation hold five integer marks
    in [0,100]. *)
Lemma accepted_form_marks v :
  validateForm v = ∅ ->
  exists m1 m2 m3 m4 m5,
    (0 <= m1 <= 100 /\ eqb (Number (maths v)) (of_Z m1) = true) /\
    (0 <= m2 <= 100 /\ eqb (Number (science v)) (of_Z m2) = true) /\
    (0 <= m3 <= 100 /\ eqb (Number (english v)) (of_Z m3) = true) /\
    (0 <= m4 <= 100 /\ eqb (Number (tamil v)) (of_Z m4) = true) /\
    (0 <= m5 <= 100 /\ eqb (Number (computerScience v)) (of_Z m5) = true).
Proof.
  intros Hv.
  assert (Hfield : forall s raw, s ∈ SUBJECTS -> get v (key s) = Some raw ->
            exists m, 0 <= m <= 100 /\ eqb (Number raw) (of_Z m) = true).
  { intros s raw Hs Hget.
    pose proof (validateForm_subject v s raw Hs Hget) as Hiff.
    rewrite Hv, lookup_empty in Hiff.
    rewrite parses_as_mark_iff in Hiff.
    apply accepted_is_mark; [apply Number_valid|].
    destruct (mark_accepted (Number raw)); [reflexivity|].
    destruct (decide (raw = [])) as [->|Hne].
    - exfalso. apply (is_Some_None (A := jsstring)). apply Hiff. tauto.
    - exfalso. apply (is_Some_None (A := jsstring)). apply Hiff.
      intros [_ H]. discriminate. }
  destruct (Hfield {| key := "maths"; label := lit "Mathematics";
                      icon := [55357; 56528]%N |} (maths v))
    as (m1 & H1); [apply list_elem_of_In; simpl; tauto|reflexivity|].
  destruct (Hfield {| key := "science"; label := lit "Science";
                      icon := [55357; 56620]%N |} (science v))
    as (m2 & H2); [apply list_elem_of_In; simpl; tauto|reflexivity|].
  destruct (Hfield {| key := "english"; label := lit "English";
                      icon := [55357; 56534]%N |} (english v))
    as (m3 & H3); [apply list_elem_of_In; simpl; tauto|reflexivity|].
  destruct (Hfield {| key := "tamil"; label := lit "Tamil";
                      icon := [9997; 65039]%N |} (tamil v))
    as (m4 & H4); [apply list_elem_of_In; simpl; tauto|reflexivity|].
  destruct (Hfield {| key := "computerScience"; label := lit "Computer Science";
                      icon := [55357; 56507]%N |} (computerScience v))
    as (m5 & H5); [apply list_elem_of_In; simpl; tauto|reflexivity|].
  exists m1, m2, m3, m4, m5. auto.
Qed.















End validation.

(** ** The total and the average of handleCalculate *)

Section calculation.
Import JS App.

Lemma div_5_value t : 0 <= t <= 500 -> average_is_quotient (div (of_Z t) (of_Z 5)) t.
Proof.
  intros Ht.
  pose (P := fun t =>
    match to_Q (div (of_Z t) (of_Z 5)) with
    | Some q =>
        Qle_bool (Qabs (q - (t # 5))) ((t # 5) * (1 # 2 ^ 53)) &&
        (if t mod 5 =? 0 then Qeq_bool q (t # 5) else true)
    | None => false
    end).
  assert (HP : P t = true).
  { apply (forallb_seqZ P 0 501); [vm_compute; reflexivity | lia]. }
  unfold P in HP. unfold average_is_quotient.
  destruct (to_Q (div (of_Z t) (of_Z 5))) as [q|]; [|discriminate].
  apply andb_true_iff in HP. destruct HP as [H1 H2].
  exists q. split; [reflexivity|]. split.
  - apply Qle_bool_iff. exact H1.
  - intros H5. apply Z.eqb_eq in H5. rewrite H5 in H2. apply Qeq_bool_iff. exact H2.
Qed.

(** The total that [handleCalculate] computes from five marks. *)
Lemma total_of_marks x1 x2 x3 x4 x5 m1 m2 m3 m4 m5 :
  0 <= m1 <= 100 -> 0 <= m2 <= 100 -> 0 <= m3 <= 100 ->
  0 <= m4 <= 100 -> 0 <= m5 <= 100 ->
  eqb x1 (of_Z m1) = true -> eqb x2 (of_Z m2) = true ->
  eqb x3 (of_Z m3) = true -> eqb x4 (of_Z m4) = true ->
  eqb x5 (of_Z m5) = true ->
  fold_left (fun a b => add a b) (Object_values (marks_of x1 x2 x3 x4 x5))
    (of_Z 0) = of_Z (m1 + m2 + m3 + m4 + m5).
Proof.
  intros H1 H2 H3 H4 H5 E1 E2 E3 E4 E5.
  cbn [marks_of Object_values fmap list_fmap snd fold_left].
  rewrite (add_mark 0 m1) by (assumption || lia).
  rewrite (add_mark (0 + m1) m2) by (assumption || lia).
  rewrite (add_mark (0 + m1 + m2) m3) by (assumption || lia).
  rewrite (add_mark (0 + m1 + m2 + m3) m4) by (assumption || lia).
  rewrite (add_mark (0 + m1 + m2 + m3 + m4) m5) by (assumption || lia).
  reflexivity.
Qed.

(** A form that passes validation is calculated. *)
Lemma handleCalculate_accepted st :
  validateForm (formValues st) = ∅ ->
  let ms := marks_of (Number (maths (formValues st)))
                     (Number (science (formValues st)))
                     (Number (english (formValues st)))
                     (Number (tamil (formValues st)))
                     (Number (computerScience (formValues st))) in
  let t := fold_left (fun a b => add a b) (Object_values ms) (of_Z 0) in
  calculated (handleCalculate st)
    = Some {| total := t; average := div t (of_Z 5);
              grade := computeGrade (div t (of_Z 5)) ms; marks := ms |}.
Proof.
  intros Hvalid. unfold handleCalculate. cbn [formValues setErrors].
  rewrite Hvalid, map_size_empty. reflexivity.
Qed.

(** Every form that passes validation holds five integer marks in [0,100],
    and its total and average are those of these marks. *)
Lemma accepted_form_total_average st :
  validateForm (formValues st) = ∅ ->
  exists c m1 m2 m3 m4 m5,
    calculated (handleCalculate st) = Some c /\
    0 <= m1 <= 100 /\ 0 <= m2 <= 100 /\ 0 <= m3 <= 100 /\
    0 <= m4 <= 100 /\ 0 <= m5 <= 100 /\
    marks c = marks_of (Number (maths (formValues st)))
                       (Number (science (formValues st)))
                       (Number (english (formValues st)))
                       (Number (tamil (formValues st)))
                       (Number (computerScience (formValues st))) /\
    total c = of_Z (m1 + m2 + m3 + m4 + m5) /\
    average c = div (of_Z (m1 + m2 + m3 + m4 + m5)) (of_Z 5) /\
    grade c = computeGrade (average c) (marks c).
Proof.
  intros Hvalid.
  destruct (accepted_form_marks _ Hvalid)
    as (m1 & m2 & m3 & m4 & m5 & [H1 E1] & [H2 E2] & [H3 E3] & [H4 E4] & [H5 E5]).
  pose proof (handleCalculate_accepted st Hvalid) as Hc. cbv zeta in Hc.
  rewrite (total_of_marks _ _ _ _ _ m1 m2 m3 m4 m5) in Hc by assumption.
  eexists. exists m1, m2, m3, m4, m5. split; [exact Hc|].
  cbn [total average grade marks]. repeat split; lia.
Qed.

(** C3. For five integer marks in [0,100]: when the form passes validation
    and its five mark fields convert to these marks, [handleCalculate] stores
    a total that is the sum of the five marks and an average that is this
    total divided by 5, the quotient of the division of the language with no
    rounding step after it. *)
Theorem handleCalculate_total_average (st : State) (m1 m2 m3 m4 m5 : Z) :
  0 <= m1 <= 100 -> 0 <= m2 <= 100 -> 0 <= m3 <= 100 ->
  0 <= m4 <= 100 -> 0 <= m5 <= 100 ->
  validateForm (formValues st) = ∅ ->
  eqb (Number (maths (formValues st))) (of_Z m1) = true ->
  eqb (Number (science (formValues st))) (of_Z m2) = true ->
  eqb (Number (english (formValues st))) (of_Z m3) = true ->
  eqb (Number (tamil (formValues st))) (of_Z m4) = true ->
  eqb (Number (computerScience (formValues st))) (of_Z m5) = true ->
  exists c, calculated (handleCalculate st) = Some c /\
    total c = of_Z (m1 + m2 + m3 + m4 + m5) /\
    average c = div (total c) (of_Z 5) /\
    average_is_quotient (average c) (m1 + m2 + m3 + m4 + m5).
Proof.
  intros H1 H2 H3 H4 H5 Hvalid E1 E2 E3 E4 E5.
  pose proof (handleCalculate_accepted st Hvalid) as Hc. cbv zeta in Hc.
  rewrite (total_of_marks _ _ _ _ _ m1 m2 m3 m4 m5) in Hc by assumption.
  eexists. split; [exact Hc|]. cbn [total average].
  split; [reflexivity|]. split; [reflexivity|].
  apply div_5_value. lia.
Qed.

Lemma handleCalculate_total_average_witness :
  exists c, calculated (handleCalculate (sample_state (lit "34"))) = Some c /\
    total c = of_Z 394 /\
    average c = div (total c) (of_Z 5) /\
    average_is_quotient (average c) 394.
Proof.
  apply (handleCalculate_total_average (sample_state (lit "34")) 34 90 90 90 90);
    try lia; vm_compute; reflexivity.
Defined.

End calculation.

(** ** The store *)

Section store.
Import Backend.

Lemma run_cons st c cs :
  run st (c :: cs) =
    ((run (call st c).1 cs).1, (call st c).2 :: (run (call st c).1 cs).2).
Proof.
  cbn [run]. destruct (call st c) as [st' r]. cbn [fst snd].
  destruct (run st' cs) as [st'' rs]. reflexivity.
Qed.

Lemma run_app st cs1 cs2 :
  (run st (cs1 ++ cs2)).1 = (run (run st cs1).1 cs2).1.
Proof.
  revert st. induction cs1 as [|c cs1 IH]; intros st; [reflexivity|].
  rewrite <- app_comm_cons, !run_cons. simpl. apply IH.
Qed.

Lemma inv_init : inv init.
Proof. intros k r H. simpl in H. rewrite lookup_empty in H. discriminate. Qed.

Lemma inv_call st c : inv st -> inv (call st c).1.
Proof.
  intros Hinv. destruct c as [rn sn m s e t cs tot avg g ts | | i |]; simpl.
  - intros k r. simpl.
    destruct (decide (k = nextId st)) as [->|Hne].
    + rewrite lookup_insert_eq. intros [= <-]. simpl. split; [reflexivity|lia].
    + rewrite lookup_insert_ne by congruence. intros H.
      destruct (Hinv k r H). split; [assumption|lia].
  - exact Hinv.
  - unfold deleteResult. destruct (Map_containsKey (results st) i); simpl.
    + intros k r. simpl. rewrite lookup_delete_Some. intros [_ H].
      exact (Hinv k r H).
    + exact Hinv.
  - intros k r. simpl. rewrite lookup_empty. discriminate.
Qed.

Lemma inv_run st cs : inv st -> inv (run st cs).1.
Proof.
  revert st. induction cs as [|c cs IH]; intros st Hinv; [exact Hinv|].
  rewrite run_cons. simpl. apply IH, inv_call, Hinv.
Qed.

Lemma reachable_inv st : reachable st -> inv st.
Proof. intros [cs <-]. apply inv_run, inv_init. Qed.

Lemma reachable_init : reachable init.
Proof. exists []. reflexivity. Qed.

Lemma reachable_call st c : reachable st -> reachable (call st c).1.
Proof.
  intros [cs <-]. exists (cs ++ [c]). rewrite run_app. simpl.
  destruct (call (run init cs).1 c). reflexivity.
Qed.

Lemma reachable_run st cs : reachable st -> reachable (run st cs).1.
Proof.
  intros [cs0 <-]. exists (cs0 ++ cs). apply run_app.
Qed.

(** *** What [getResults] returns *)

Lemma Map_values_Permutation (m : Map) : Map_values m ≡ₚ (map_to_list m).*2.
Proof. unfold Map_values. rewrite merge_sort_Permutation. reflexivity. Qed.

Lemma sort_Permutation l : sort l ≡ₚ l.
Proof. apply merge_sort_Permutation. Qed.

Lemma listing_Permutation (m : Map) :
  sort (Map_values m) ≡ₚ (map_to_list m).*2.
Proof. rewrite sort_Permutation. apply Map_values_Permutation. Qed.

Lemma elem_of_listing (m : Map) r :
  r ∈ sort (Map_values m) <-> exists k, m !! k = Some r.
Proof.
  rewrite listing_Permutation, list_elem_of_fmap. split.
  - intros ([k r'] & -> & H). exists k. apply elem_of_map_to_list in H. exact H.
  - intros [k H]. exists (k, r). split; [reflexivity|].
    apply elem_of_map_to_list. exact H.
Qed.

Lemma length_listing (m : Map) : length (sort (Map_values m)) = size m.
Proof.
  rewrite listing_Permutation, length_fmap. apply length_map_to_list.
Qed.

Lemma compare_le_iff a b : compare_le a b <-> (id a <= id b)%N.
Proof. unfold compare_le, compare. apply N.compare_le_iff. Qed.

#[local] Instance compare_le_total : Total compare_le.
Proof. intros a b. rewrite !compare_le_iff. lia. Qed.

#[local] Instance compare_le_trans : Transitive compare_le.
Proof. intros a b c. rewrite !compare_le_iff. lia. Qed.

Lemma sort_StronglySorted l : StronglySorted compare_le (sort l).
Proof. apply StronglySorted_merge_sort; apply _. Qed.

(** In a state that satisfies the invariant, the ids of the listed records
    are the keys of the map. *)
Lemma listing_ids_Permutation st :
  inv st -> id <$> sort (Map_values (results st)) ≡ₚ (map_to_list (results st)).*1.
Proof.
  intros Hinv. rewrite listing_Permutation, <- list_fmap_compose.
  erewrite list_fmap_ext; [reflexivity|].
  intros i [k r] H. simpl.
  apply list_elem_of_lookup_2, elem_of_map_to_list in H.
  apply (Hinv k r H).
Qed.

Lemma listing_ids_NoDup st : inv st -> NoDup (id <$> sort (Map_values (results st))).
Proof.
  intros Hinv. rewrite listing_ids_Permutation by assumption.
  apply NoDup_fst_map_to_list.
Qed.

Lemma StronglySorted_strict (l : list StudentResult) :
  StronglySorted compare_le l -> NoDup (id <$> l) ->
  StronglySorted N.lt (id <$> l).
Proof.
  induction 1 as [|a l Hl IH Hall]; intros Hnd; [constructor|].
  rewrite fmap_cons in *.
  apply NoDup_cons in Hnd. destruct Hnd as [Hnotin Hnd].
  constructor; [apply IH, Hnd|].
  apply Forall_fmap, Forall_forall. intros b Hb. simpl.
  rewrite Forall_forall in Hall. specialize (Hall b Hb).
  apply (proj1 (compare_le_iff a b)) in Hall.
  assert (id a <> id b).
  { intros Heq. apply Hnotin. rewrite Heq. apply list_elem_of_fmap_2, Hb. }
  lia.
Qed.

Lemma listing_ids_sorted st :
  inv st -> StronglySorted N.lt (id <$> sort (Map_values (results st))).
Proof.
  intros Hinv. apply StronglySorted_strict.
  - apply sort_StronglySorted.
  - apply listing_ids_NoDup, Hinv.
Qed.

(** C10. In every state reached from the empty store by calls of
    [addResult], [getResults], [deleteResult] and [clearAll], every key of
    [results] is below [nextId] and the record stored under a key has that key
    as its id; the records that [getResults] returns have distinct ids. *)
Theorem reachable_keys_below_nextId (st : State) :
  reachable st ->
  (forall k r, results st !! k = Some r -> (k < nextId st)%N /\ id r = k) /\
  (exists l, getResults st = Ok l st /\ NoDup (id <$> l)).
Proof.
  intros Hreach. apply reachable_inv in Hreach. split.
  - intros k r H. destruct (Hreach k r H). auto.
  - eexists. split; [reflexivity|]. apply listing_ids_NoDup, Hreach.
Qed.

Lemma reachable_keys_below_nextId_witness :
  (forall k r, results (run init sample_calls).1 !! k = Some r ->
     (k < nextId (run init sample_calls).1)%N /\ id r = k) /\
  (exists l, getResults (run init sample_calls).1
               = Ok l (run init sample_calls).1 /\ NoDup (id <$> l)).
Proof.
  apply (reachable_keys_below_nextId (run init sample_calls).1).
  exists sample_calls. reflexivity.
Defined.

(** C7. [clearAll] succeeds in every state; after it the store has no record
    and the counter is zero, so the next [addResult] returns the id 0. *)
Theorem clearAll_resets (st : State) :
  exists st', clearAll st = Ok tt st' /\
    call st CallClearAll = (st', ReplyUnit) /\
    results st' = ∅ /\ nextId st' = 0%N /\
    getResults st' = Ok [] st' /\
    forall rn sn m s e t cs tot avg g ts,
      exists st'', addResult rn sn m s e t cs tot avg g ts st' = Ok 0%N st''.
Proof.
  eexists. split; [reflexivity|]. split; [reflexivity|].
  split; [reflexivity|]. split; [reflexivity|]. split.
  - unfold getResults, Map_values. simpl. rewrite map_to_list_empty. reflexivity.
  - intros. eexists. reflexivity.
Qed.

(** C9. [addResult] never fails. It stores the total, the average and the
    grade it is given as they are, next to the marks, without comparing them
    with the marks: a total of 499 with five marks of 10 is stored as 499. *)
Theorem addResult_stores_verbatim rn sn m s e t cs tot avg g ts (st : State) :
  let r := {| id := nextId st; rollNumber := rn; studentName := sn;
              maths := m; science := s; english := e; tamil := t;
              computerScience := cs; total := tot; average := avg;
              grade := g; timestamp := ts |} in
  (exists st', addResult rn sn m s e t cs tot avg g ts st = Ok (nextId st) st' /\
     call st (CallAddResult rn sn m s e t cs tot avg g ts)
       = (st', ReplyNat (nextId st)) /\
     results st' !! nextId st = Some r /\
     nextId st' = (nextId st + 1)%N /\
     forall k, k <> nextId st -> results st' !! k = results st !! k) /\
  (exists st' r',
     addResult "2024CS001" "Arjun Kumar" 10 10 10 10 10 499 (JS.of_Z 99) "A"
       1762128000000 init
       = Ok 0%N st' /\
     results st' !! 0%N = Some r' /\
     total r' = 499%N /\ average r' = JS.of_Z 99 /\ grade r' = "A" /\
     total r' <> (maths r' + science r' + english r' + tamil r'
                  + computerScience r')%N).
Proof.
  intros r. split.
  - eexists. split; [reflexivity|]. split; [reflexivity|]. simpl.
    split; [apply lookup_insert_eq|]. split; [reflexivity|].
    intros k Hk. apply lookup_insert_ne. congruence.
  - eexists. eexists. split; [reflexivity|]. simpl.
    split; [apply lookup_insert_eq|]. simpl.
    repeat split; discriminate.
Qed.

(** *** Ids *)

Lemma assigned_ids_cons r rs :
  assigned_ids (r :: rs) = assigned_ids [r] ++ assigned_ids rs.
Proof. destruct r; reflexivity. Qed.

Lemma call_assigned_id st c :
  assigned_ids [(call st c).2] = if is_addResult c then [nextId st] else [].
Proof.
  destruct c as [rn sn m s e t cs tot avg g ts | | i |]; try reflexivity.
  simpl. unfold deleteResult.
  destruct (Map_containsKey (results st) i); reflexivity.
Qed.

Lemma call_nextId st c :
  is_clearAll c = false ->
  nextId (call st c).1 = (nextId st + if is_addResult c then 1 else 0)%N.
Proof.
  destruct c as [rn sn m s e t cs tot avg g ts | | i |]; intros Hc;
    try discriminate Hc; simpl.
  - reflexivity.
  - lia.
  - unfold deleteResult.
    destruct (Map_containsKey (results st) i); simpl; lia.
Qed.

(** Without [clearAll] the counter never goes down, and the ids that a
    sequence of calls assigns lie between the counter before and after. *)
Lemma ids_between st cs :
  Forall (fun c => is_clearAll c = false) cs ->
  (nextId st <= nextId (run st cs).1)%N /\
  Forall (fun i => (nextId st <= i < nextId (run st cs).1)%N)
    (assigned_ids (run st cs).2) /\
  StronglySorted N.lt (assigned_ids (run st cs).2).
Proof.
  intros Hcs. revert st. induction Hcs as [|c cs Hc Hcs IH]; intros st.
  { simpl. split; [lia|]. split; constructor. }
  rewrite run_cons. cbn [fst snd].
  rewrite assigned_ids_cons, call_assigned_id.
  destruct (IH (call st c).1) as (Hle & Hids & Hsorted).
  rewrite (call_nextId st c Hc) in Hle, Hids.
  destruct (is_addResult c); cbn [app].
  - split; [lia|]. split.
    + constructor; [lia|]. eapply Forall_impl; [exact Hids|].
      intros j Hj. simpl in Hj. lia.
    + constructor; [exact Hsorted|]. eapply Forall_impl; [exact Hids|].
      intros j Hj. simpl in Hj. lia.
  - rewrite N.add_0_r in Hle, Hids. auto.
Qed.

(** C4, as the code has it: in a sequence of calls without [clearAll], the
    ids that the successive [addResult] calls return are strictly increasing,
    so that none is used twice, whatever [deleteResult] removes in between. *)
Theorem ids_strictly_increasing_without_clearAll (st : State) (cs : list Call) :
  Forall (fun c => is_clearAll c = false) cs ->
  StronglySorted N.lt (assigned_ids (run st cs).2) /\
  NoDup (assigned_ids (run st cs).2).
Proof.
  intros Hcs. destruct (ids_between st cs Hcs) as (_ & _ & Hsorted).
  split; [exact Hsorted|].
  induction Hsorted as [|i l Hl IH Hall]; constructor; [|exact IH].
  intros Hin. rewrite Forall_forall in Hall. specialize (Hall i Hin). lia.
Qed.

Lemma ids_strictly_increasing_without_clearAll_witness :
  assigned_ids (run init sample_calls).2 = [0; 1; 2; 3]%N /\
  StronglySorted N.lt (assigned_ids (run init sample_calls).2) /\
  NoDup (assigned_ids (run init sample_calls).2).
Proof.
  split; [reflexivity|].
  apply (ids_strictly_increasing_without_clearAll init sample_calls).
  repeat constructor.
Defined.

(** C4, as the specification states it, fails: [clearAll] sets the counter back to
    zero, and the next [addResult] returns the id 0 a second time. *)
Lemma id_reused_after_clearAll :
  assigned_ids (run init [sample_add; CallClearAll; sample_add]).2
    = [0; 0]%N /\
  ~ StronglySorted N.lt
      (assigned_ids (run init [sample_add; CallClearAll; sample_add]).2) /\
  ~ NoDup (assigned_ids (run init [sample_add; CallClearAll; sample_add]).2).
Proof.
  split; [reflexivity|]. split.
  - intros H. change (StronglySorted N.lt [0; 0]%N) in H.
    apply StronglySorted_inv in H. destruct H as [_ H].
    apply Forall_inv in H. lia.
  - intros H. change (NoDup [0; 0]%N) in H.
    apply NoDup_cons in H. destruct H as [H _]. apply H. left.
Qed.

(** *** deleteResult *)

Lemma Map_containsKey_true (m : Map) k :
  Map_containsKey m k = true <-> is_Some (m !! k).
Proof. unfold Map_containsKey. apply bool_decide_eq_true. Qed.

Lemma Map_containsKey_false (m : Map) k :
  Map_containsKey m k = false <-> m !! k = None.
Proof.
  unfold Map_containsKey. rewrite bool_decide_eq_false.
  rewrite eq_None_not_Some. reflexivity.
Qed.

Lemma gone_call i st c : is_clearAll c = false -> gone i st -> gone i (call st c).1.
Proof.
  intros Hc (Hinv & Hnone & Hlt). split; [apply inv_call, Hinv|].
  rewrite (call_nextId st c Hc). split; [|lia].
  destruct c as [rn sn m s e t cs tot avg g ts | | j |]; try discriminate Hc; simpl.
  - rewrite lookup_insert_ne by lia. exact Hnone.
  - exact Hnone.
  - unfold deleteResult. destruct (Map_containsKey (results st) j); simpl.
    + apply lookup_delete_None. auto.
    + exact Hnone.
Qed.

Lemma gone_run i st cs :
  Forall (fun c => is_clearAll c = false) cs -> gone i st -> gone i (run st cs).1.
Proof.
  intros Hcs. revert st. induction Hcs as [|c cs Hc Hcs IH]; intros st Hg.
  - exact Hg.
  - rewrite run_cons. cbn [fst]. apply IH, gone_call; assumption.
Qed.

Lemma gone_not_listed i st r :
  gone i st -> r ∈ sort (Map_values (results st)) -> id r <> i.
Proof.
  intros (Hinv & Hnone & _) Hr Hid. apply elem_of_listing in Hr.
  destruct Hr as [k Hk]. destruct (Hinv k r Hk) as [Hidk _].
  rewrite <- Hidk, Hid in Hk. congruence.
Qed.

(** C6, as the code has it. [deleteResult id] traps exactly when no record
    is stored under [id], and the call then leaves the state as it was. When
    a record is stored under [id], the call succeeds and removes that record
    and no other, and the counter keeps its value; in a state the actor can
    reach, [getResults] then lists no record with that id, neither at once
    nor after any further calls among which there is no [clearAll]. *)
Theorem deleteResult_removes_or_traps (st : State) (i : N) :
  ((exists msg, deleteResult i st = Trap msg) <-> results st !! i = None) /\
  (results st !! i = None ->
     call st (CallDeleteResult i)
       = (st, Rejected "Result with id does not exist")) /\
  (is_Some (results st !! i) ->
     exists st', deleteResult i st = Ok tt st' /\
       call st (CallDeleteResult i) = (st', ReplyUnit) /\
       results st' = delete i (results st) /\
       nextId st' = nextId st /\
       results st' !! i = None /\
       (forall k, k <> i -> results st' !! k = results st !! k) /\
       (reachable st ->
        (forall l st'', getResults st' = Ok l st'' ->
           forall r, r ∈ l -> id r <> i) /\
        (forall cs, Forall (fun c => is_clearAll c = false) cs ->
           forall l st'', getResults (run st' cs).1 = Ok l st'' ->
           forall r, r ∈ l -> id r <> i))).
Proof.
  split; [|split].
  - unfold deleteResult. split.
    + intros [msg H]. destruct (Map_containsKey (results st) i) eqn:Hc;
        [discriminate|]. apply Map_containsKey_false, Hc.
    + intros H. apply Map_containsKey_false in H. rewrite H. eexists. reflexivity.
  - intros H. apply Map_containsKey_false in H. simpl. unfold deleteResult.
    rewrite H. reflexivity.
  - intros H. pose proof H as Hsome. apply Map_containsKey_true in H.
    eexists. split; [unfold deleteResult; rewrite H; reflexivity|].
    split; [simpl; unfold deleteResult; rewrite H; reflexivity|].
    split; [reflexivity|]. split; [reflexivity|].
    split; [apply lookup_delete_eq|].
    split; [intros k Hk; apply lookup_delete_ne; congruence|].
    intros Hreach. apply reachable_inv in Hreach.
    assert (Hgone : gone i {| results := delete i (results st);
                              nextId := nextId st |}).
    { split; [|split].
      - intros k r' Hk. simpl in Hk. apply lookup_delete_Some in Hk.
        destruct Hk as [_ Hk]. exact (Hreach k r' Hk).
      - apply lookup_delete_eq.
      - destruct Hsome as [r' Hr']. simpl. apply (Hreach i r' Hr'). }
    assert (Hlater : forall cs, Forall (fun c => is_clearAll c = false) cs ->
              forall l st'',
                getResults (run {| results := delete i (results st);
                                   nextId := nextId st |} cs).1 = Ok l st'' ->
                forall r, r ∈ l -> id r <> i).
    { intros cs Hcs l st'' Hget r Hr.
      apply (gone_run i _ cs Hcs) in Hgone.
      unfold getResults in Hget. injection Hget as <- _.
      exact (gone_not_listed i _ r Hgone Hr). }
    split; [|exact Hlater].
    intros l st''. apply (Hlater []). constructor.
Qed.

Lemma deleteResult_removes_or_traps_witness :
  exists st',
    deleteResult 1 (run init [sample_add; sample_add]).1 = Ok tt st' /\
    forall l st'',
      getResults (run st' [sample_add; CallGetResults]).1 = Ok l st'' ->
      forall r, r ∈ l -> id r <> 1%N.
Proof.
  destruct (deleteResult_removes_or_traps (run init [sample_add; sample_add]).1 1)
    as (_ & _ & H).
  destruct H as (st' & Hdel & _ & _ & _ & _ & _ & Hreach);
    [vm_compute; eauto|].
  exists st'. split; [exact Hdel|].
  destruct Hreach as [_ Hlater];
    [exists [sample_add; sample_add]; reflexivity|].
  apply Hlater. repeat constructor.
Defined.

(** C6, as the specification states it, fails once [clearAll] is called:
    the record with the id 0 is deleted, and after [clearAll] the next record
    is given the id 0 and listed. *)
Lemma id_listed_again_after_clearAll :
  exists st',
    deleteResult 0 (run init [sample_add]).1 = Ok tt st' /\
    (exists l st'', getResults st' = Ok l st'' /\ 0%N ∉ id <$> l) /\
    exists l st'',
      getResults (run st' [CallClearAll; sample_add]).1 = Ok l st'' /\
      0%N ∈ id <$> l.
Proof.
  eexists. split; [reflexivity|]. split.
  - eexists. eexists. split; [reflexivity|]. vm_compute. apply not_elem_of_nil.
  - eexists. eexists. split; [reflexivity|]. vm_compute. left.
Qed.

(** *** getResults *)

Lemma dense_run st cs :
  Forall (fun c => is_addResult c || is_getResults c = true) cs ->
  dense st ->
  dense (run st cs).1 /\
  nextId (run st cs).1 = (nextId st + N.of_nat (count_adds cs))%N.
Proof.
  intros Hcs. revert st. induction Hcs as [|c cs Hc Hcs IH]; intros st Hd.
  { simpl. split; [exact Hd|]. unfold count_adds. simpl. lia. }
  rewrite run_cons. cbn [fst].
  destruct c as [rn sn m s e t cs' tot avg g ts | | j |]; try discriminate Hc.
  - destruct (IH (call st (CallAddResult rn sn m s e t cs' tot avg g ts)).1)
      as [Hd' Hn'].
    + intros k. simpl. rewrite lookup_insert_is_Some, (Hd k).
      destruct (decide (nextId st = k)); split; intros; try lia; tauto.
    + split; [exact Hd'|]. rewrite Hn'. unfold count_adds. simpl. lia.
  - destruct (IH (call st CallGetResults).1) as [Hd' Hn']; [exact Hd|].
    split; [exact Hd'|]. rewrite Hn'. reflexivity.
Qed.

Lemma seq_StronglySorted start len : StronglySorted lt (seq start len).
Proof.
  revert start. induction len as [|len IH]; intros start; simpl; constructor.
  - apply IH.
  - apply Forall_forall. intros x Hx. apply list_elem_of_In, in_seq in Hx. lia.
Qed.

(** C5. In every state the actor can reach, [getResults] returns the
    records of the store and nothing else, each once, by strictly ascending
    id. After calls of [addResult] only (with [getResults] in between where
    one likes), it returns as many records as there were [addResult] calls,
    with the ids 0, 1, 2, ... in this order. *)
Theorem getResults_lists_records_by_id (st : State) :
  reachable st ->
  (exists l, getResults st = Ok l st /\
     call st CallGetResults = (st, ReplyResults l) /\
     (forall r, r ∈ l <-> results st !! id r = Some r) /\
     (forall k, is_Some (results st !! k) <-> k ∈ id <$> l) /\
     length l = size (results st) /\
     NoDup (id <$> l) /\
     StronglySorted N.lt (id <$> l)) /\
  (forall cs, Forall (fun c => is_addResult c || is_getResults c = true) cs ->
     exists l st', getResults (run init cs).1 = Ok l st' /\
       length l = count_adds cs /\
       id <$> l = N.of_nat <$> seq 0 (count_adds cs)).
Proof.
  intros Hreach. apply reachable_inv in Hreach. split.
  - eexists. split; [reflexivity|]. split; [reflexivity|].
    split; [|split; [|split; [|split]]].
    + intros r. rewrite elem_of_listing. split.
      * intros [k Hk]. destruct (Hreach k r Hk) as [-> _]. exact Hk.
      * eauto.
    + intros k. rewrite list_elem_of_fmap. split.
      * intros [r Hr]. exists r. destruct (Hreach k r Hr) as [Hid _].
        split; [congruence|]. apply elem_of_listing. eauto.
      * intros (r & -> & Hr). apply elem_of_listing in Hr.
        destruct Hr as [k Hk]. destruct (Hreach k r Hk) as [-> _]. eauto.
    + apply length_listing.
    + apply listing_ids_NoDup, Hreach.
    + apply listing_ids_sorted, Hreach.
  - intros cs Hcs.
    destruct (dense_run init cs Hcs) as [Hd Hn].
    { intros k. simpl. rewrite lookup_empty. split; [intros [? ?]; discriminate|lia]. }
    simpl in Hn. rewrite N.add_0_l in Hn.
    assert (Hinv : inv (run init cs).1) by apply inv_run, inv_init.
    eexists. eexists. split; [reflexivity|].
    assert (Hids : id <$> sort (Map_values (results (run init cs).1))
                   = N.of_nat <$> seq 0 (count_adds cs)).
    { apply (StronglySorted_unique_strong N.lt).
      - intros x1 x2 _ _ H1 H2. lia.
      - apply listing_ids_sorted, Hinv.
      - apply (StronglySorted_fmap _ lt); [intros x y; lia|].
        apply seq_StronglySorted.
      - apply NoDup_Permutation.
        + apply listing_ids_NoDup, Hinv.
        + apply NoDup_fmap_2; [apply _|]. apply NoDup_ListNoDup, seq_NoDup.
        + intros k. rewrite listing_ids_Permutation by exact Hinv.
          rewrite list_elem_of_fmap. split.
          * intros ([k' r] & -> & H). apply elem_of_map_to_list in H.
            simpl. assert (Hk : (k' < nextId (run init cs).1)%N).
            { apply Hd. eauto. }
            rewrite list_elem_of_fmap. exists (N.to_nat k').
            split; [lia|]. apply list_elem_of_In, in_seq. lia.
          * rewrite list_elem_of_fmap. intros (n & -> & Hn').
            apply list_elem_of_In, in_seq in Hn'.
            assert (Hk : is_Some (results (run init cs).1 !! N.of_nat n)).
            { apply Hd. lia. }
            destruct Hk as [r Hr]. exists (N.of_nat n, r).
            split; [reflexivity|]. apply elem_of_map_to_list. exact Hr. }
    split; [|exact Hids].
    apply (f_equal length) in Hids. rewrite !length_fmap, length_seq in Hids.
    exact Hids.
Qed.

Lemma getResults_lists_records_by_id_witness :
  exists l, getResults (run init sample_calls).1
              = Ok l (run init sample_calls).1 /\
    id <$> l = [0; 2; 3]%N /\
    StronglySorted N.lt (id <$> l).
Proof.
  destruct (getResults_lists_records_by_id (run init sample_calls).1)
    as [(l & Hl & _ & _ & _ & _ & _ & Hs) _].
  { exists sample_calls. reflexivity. }
  exists l. split; [exact Hl|]. split; [|exact Hs].
  vm_compute in Hl. injection Hl as <-. reflexivity.
Defined.

End store.

(** * Further properties *)

(** ** More on computeGrade *)

Section more_grading.
Import JS App.

(** The grade of five integer marks, with the average of [handleCalculate]. *)
Lemma computeGrade_integer_marks m1 m2 m3 m4 m5 :
  0 <= m1 <= 100 -> 0 <= m2 <= 100 -> 0 <= m3 <= 100 ->
  0 <= m4 <= 100 -> 0 <= m5 <= 100 ->
  computeGrade (div (of_Z (m1 + m2 + m3 + m4 + m5)) (of_Z 5))
    (marks_of (of_Z m1) (of_Z m2) (of_Z m3) (of_Z m4) (of_Z m5))
  = if existsb (fun m => m <? 35) [m1; m2; m3; m4; m5]
       || (m1 + m2 + m3 + m4 + m5 <? 200) then lit "Fail"
    else if 400 <=? m1 + m2 + m3 + m4 + m5 then lit "A"
    else if 300 <=? m1 + m2 + m3 + m4 + m5 then lit "B"
    else lit "C".
Proof.
  intros H1 H2 H3 H4 H5. unfold computeGrade.
  rewrite hasFailingSubject_of_Z by assumption.
  destruct (average_thresholds (m1 + m2 + m3 + m4 + m5)) as (Hlt & Hge80 & Hge60);
    [lia|].
  rewrite Hlt, Hge80, Hge60. cbn [existsb].
  rewrite orb_false_r, !orb_assoc. reflexivity.
Qed.

Lemma existsb_Permutation {A} (f : A -> bool) l l' :
  l ≡ₚ l' -> existsb f l = existsb f l'.
Proof.
  induction 1 as [|x l l' _ IH|x y l|l l' l'' _ IH1 _ IH2]; simpl.
  - reflexivity.
  - rewrite IH. reflexivity.
  - destruct (f x), (f y); reflexivity.
  - congruence.
Qed.

Lemma sum_Permutation (l l' : list Z) :
  l ≡ₚ l' -> foldr Z.add 0 l = foldr Z.add 0 l'.
Proof.
  induction 1 as [|x l l' _ IH|x y l|l l' l'' _ IH1 _ IH2]; simpl; lia.
Qed.

Lemma grade_rank_cases (b : bool) (t : Z) :
  grade_rank (if b then lit "Fail"
              else if 400 <=? t then lit "A"
              else if 300 <=? t then lit "B" else lit "C")
  = if b then 0%nat
    else if 400 <=? t then 3%nat else if 300 <=? t then 2%nat else 1%nat.
Proof. destruct b, (400 <=? t), (300 <=? t); reflexivity. Qed.

(** X1. Better marks never give a worse grade. *)
Theorem computeGrade_monotone (m1 m2 m3 m4 m5 n1 n2 n3 n4 n5 : Z) :
  0 <= m1 <= n1 -> 0 <= m2 <= n2 -> 0 <= m3 <= n3 ->
  0 <= m4 <= n4 -> 0 <= m5 <= n5 ->
  n1 <= 100 -> n2 <= 100 -> n3 <= 100 -> n4 <= 100 -> n5 <= 100 ->
  (grade_rank
     (computeGrade (div (of_Z (m1 + m2 + m3 + m4 + m5)) (of_Z 5))
        (marks_of (of_Z m1) (of_Z m2) (of_Z m3) (of_Z m4) (of_Z m5)))
   <= grade_rank
        (computeGrade (div (of_Z (n1 + n2 + n3 + n4 + n5)) (of_Z 5))
           (marks_of (of_Z n1) (of_Z n2) (of_Z n3) (of_Z n4) (of_Z n5))))%nat.
Proof.
  intros H1 H2 H3 H4 H5 B1 B2 B3 B4 B5.
  rewrite !computeGrade_integer_marks by lia.
  rewrite !grade_rank_cases.
  assert (Ht : m1 + m2 + m3 + m4 + m5 <= n1 + n2 + n3 + n4 + n5) by lia.
  assert (Hany : existsb (fun m => m <? 35) [n1; n2; n3; n4; n5] = true ->
                 existsb (fun m => m <? 35) [m1; m2; m3; m4; m5] = true).
  { cbn [existsb]. rewrite !orb_true_iff, !Z.ltb_lt. lia. }
  generalize dependent (existsb (fun m => m <? 35) [m1; m2; m3; m4; m5]).
  generalize dependent (existsb (fun m => m <? 35) [n1; n2; n3; n4; n5]).
  generalize dependent (m1 + m2 + m3 + m4 + m5).
  generalize dependent (n1 + n2 + n3 + n4 + n5).
  clear. intros t' t Ht a' a Hany.
  destruct a; [cbn [orb]; lia|].
  destruct a'; [discriminate (Hany eq_refl)|]. cbn [orb].
  destruct (Z.ltb_spec t 200); [lia|].
  destruct (Z.ltb_spec t' 200); [lia|].
  destruct (Z.leb_spec 400 t), (Z.leb_spec 400 t'),
    (Z.leb_spec 300 t), (Z.leb_spec 300 t'); lia.
Qed.

Lemma computeGrade_monotone_witness :
  (grade_rank
     (computeGrade (div (of_Z (34 + 90 + 90 + 90 + 90)) (of_Z 5))
        (marks_of (of_Z 34) (of_Z 90) (of_Z 90) (of_Z 90) (of_Z 90)))
   <= grade_rank
        (computeGrade (div (of_Z (35 + 90 + 90 + 90 + 95)) (of_Z 5))
           (marks_of (of_Z 35) (of_Z 90) (of_Z 90) (of_Z 90) (of_Z 95))))%nat.
Proof.
  apply (computeGrade_monotone 34 90 90 90 90 35 90 90 90 95); lia.
Defined.

(** X2. The total and the grade do not depend on which subject has which
    mark. *)
Theorem calculation_of_permuted_marks (m1 m2 m3 m4 m5 n1 n2 n3 n4 n5 : Z) :
  0 <= m1 <= 100 -> 0 <= m2 <= 100 -> 0 <= m3 <= 100 ->
  0 <= m4 <= 100 -> 0 <= m5 <= 100 ->
  [n1; n2; n3; n4; n5] ≡ₚ [m1; m2; m3; m4; m5] ->
  let ms := marks_of (of_Z m1) (of_Z m2) (of_Z m3) (of_Z m4) (of_Z m5) in
  let ns := marks_of (of_Z n1) (of_Z n2) (of_Z n3) (of_Z n4) (of_Z n5) in
  let t := fold_left (fun a b => add a b) (Object_values ms) (of_Z 0) in
  let t' := fold_left (fun a b => add a b) (Object_values ns) (of_Z 0) in
  t' = t /\
  computeGrade (div t' (of_Z 5)) ns = computeGrade (div t (of_Z 5)) ms.
Proof.
  intros H1 H2 H3 H4 H5 Hperm ms ns t t'.
  assert (Hn : Forall (fun n => 0 <= n <= 100) [n1; n2; n3; n4; n5]).
  { rewrite Hperm. repeat constructor; lia. }
  rewrite !Forall_cons in Hn. destruct Hn as (G1 & G2 & G3 & G4 & G5 & _).
  assert (Hsum : n1 + n2 + n3 + n4 + n5 = m1 + m2 + m3 + m4 + m5).
  { pose proof (sum_Permutation _ _ Hperm) as Hs. simpl in Hs. lia. }
  assert (Et : t = of_Z (m1 + m2 + m3 + m4 + m5)).
  { apply total_of_marks; try assumption; apply eqb_of_Z_refl; assumption. }
  assert (Et' : t' = of_Z (n1 + n2 + n3 + n4 + n5)).
  { apply total_of_marks; try assumption; apply eqb_of_Z_refl; assumption. }
  rewrite Et, Et'. unfold ms, ns.
  rewrite !computeGrade_integer_marks by assumption.
  rewrite Hsum, (existsb_Permutation _ _ _ Hperm). auto.
Qed.

Lemma calculation_of_permuted_marks_witness :
  fold_left (fun a b => add a b)
    (Object_values (marks_of (of_Z 90) (of_Z 34) (of_Z 60) (of_Z 70) (of_Z 50)))
    (of_Z 0)
  = fold_left (fun a b => add a b)
      (Object_values (marks_of (of_Z 34) (of_Z 90) (of_Z 60) (of_Z 70) (of_Z 50)))
      (of_Z 0).
Proof.
  apply (calculation_of_permuted_marks 34 90 60 70 50 90 34 60 70 50); try lia.
  apply perm_swap.
Defined.

End more_grading.

(** ** More on validateForm *)

Section more_validation.
Import JS App.

(** [validateForm] has entries under the names of the seven fields only. *)
Lemma validateForm_keys v k :
  is_Some (validateForm v !! k) ->
  k ∈ ["studentName"; "rollNumber"; "maths"; "science"; "english"; "tamil";
       "computerScience"].
Proof.
  intros Hk.
  destruct (decide (k ∈ ["studentName"; "rollNumber"; "maths"; "science";
                         "english"; "tamil"; "computerScience"]))
    as [|Hnot]; [assumption|exfalso].
  rewrite !not_elem_of_cons in Hnot.
  destruct Hnot as (N1 & N2 & N3 & N4 & N5 & N6 & N7 & _).
  rewrite validateForm_unfold in Hk. unfold SUBJECTS in Hk. simpl fold_left in Hk.
  rewrite !validateSubject_other in Hk by (simpl; congruence).
  rewrite validateNames_lookup in Hk.
  rewrite !bool_decide_eq_false_2 in Hk by congruence.
  destruct Hk; discriminate.
Qed.

Lemma validateSubject_messages v e s :
  messages_nonempty e -> messages_nonempty (validateSubject v e s).
Proof.
  intros He k msg. unfold validateSubject.
  repeat case_match; try apply He;
    (destruct (decide (k = key s)) as [->|Hne];
     [rewrite lookup_insert_eq; intros [= <-]
     |rewrite lookup_insert_ne by congruence; apply He]);
    intros Heq;
    first [ apply app_eq_nil in Heq as [_ Heq]; vm_compute in Heq; discriminate
          | vm_compute in Heq; discriminate ].
Qed.

(** Every message of [validateForm] is a string that is not empty. *)
Lemma validateForm_messages v : messages_nonempty (validateForm v).
Proof.
  rewrite validateForm_unfold.
  assert (H0 : messages_nonempty (validateNames v)).
  { intros k msg. rewrite validateNames_lookup.
    repeat case_bool_decide; intros [= <-]; discriminate. }
  revert H0. generalize (validateNames v). generalize SUBJECTS.
  intros l. induction l as [|s l IH]; intros e He; [exact He|].
  simpl. apply IH, validateSubject_messages, He.
Qed.

(** X3. A form passes validation exactly when the name and the roll number
    are not blank and each of the five mark fields parses as an integer in
    [0,100]. *)
Theorem validateForm_accepts_iff (v : FormValues) :
  validateForm v = ∅ <->
  trim (studentName v) <> [] /\ trim (rollNumber v) <> [] /\
  parses_as_mark (maths v) /\ parses_as_mark (science v) /\
  parses_as_mark (english v) /\ parses_as_mark (tamil v) /\
  parses_as_mark (computerScience v).
Proof.
  assert (Hsub : forall s raw, s ∈ SUBJECTS -> get v (key s) = Some raw ->
            (validateForm v !! key s = None <-> parses_as_mark raw)).
  { intros s raw Hs Hget.
    pose proof (validateForm_subject v s raw Hs Hget) as Hiff.
    rewrite parses_as_mark_iff in *.
    destruct (validateForm v !! key s) as [msg|].
    - split; [discriminate|]. intros H. exfalso. apply Hiff; eauto.
    - split; [|reflexivity]. intros _.
      destruct (decide (raw = [])) as [->|Hne].
      + exfalso. apply (is_Some_None (A := jsstring)). apply Hiff. tauto.
      + split; [assumption|].
        destruct (mark_accepted (Number raw)); [reflexivity|].
        exfalso. apply (is_Some_None (A := jsstring)). apply Hiff.
        intros [_ H]. discriminate. }
  pose proof (Hsub {| key := "maths"; label := lit "Mathematics";
                      icon := [55357; 56528]%N |} (maths v)
                ltac:(apply list_elem_of_In; simpl; tauto) eq_refl) as S1.
  pose proof (Hsub {| key := "science"; label := lit "Science";
                      icon := [55357; 56620]%N |} (science v)
                ltac:(apply list_elem_of_In; simpl; tauto) eq_refl) as S2.
  pose proof (Hsub {| key := "english"; label := lit "English";
                      icon := [55357; 56534]%N |} (english v)
                ltac:(apply list_elem_of_In; simpl; tauto) eq_refl) as S3.
  pose proof (Hsub {| key := "tamil"; label := lit "Tamil";
                      icon := [9997; 65039]%N |} (tamil v)
                ltac:(apply list_elem_of_In; simpl; tauto) eq_refl) as S4.
  pose proof (Hsub {| key := "computerScience"; label := lit "Computer Science";
                      icon := [55357; 56507]%N |} (computerScience v)
                ltac:(apply list_elem_of_In; simpl; tauto) eq_refl) as S5.
  cbn [key] in S1, S2, S3, S4, S5. clear Hsub.
  assert (N1 : validateForm v !! "studentName" = None
               <-> trim (studentName v) <> []).
  { rewrite validateForm_names, validateNames_lookup by tauto.
    rewrite bool_decide_eq_false_2 by discriminate.
    rewrite bool_decide_eq_true_2 by reflexivity.
    case_bool_decide; split; intros Hx; try tauto; try reflexivity.
    discriminate. }
  assert (N2 : validateForm v !! "rollNumber" = None
               <-> trim (rollNumber v) <> []).
  { rewrite validateForm_names, validateNames_lookup by tauto.
    rewrite bool_decide_eq_true_2 by reflexivity.
    case_bool_decide; split; intros Hx; try tauto; try reflexivity.
    discriminate. }
  split.
  - intros Hv. rewrite Hv in *. rewrite lookup_empty in *. tauto.
  - intros (A1 & A2 & A3 & A4 & A5 & A6 & A7).
    apply map_eq. intros k. rewrite lookup_empty.
    destruct (validateForm v !! k) as [msg|] eqn:Hk; [exfalso|reflexivity].
    assert (Hin := validateForm_keys v k ltac:(eauto)).
    rewrite !elem_of_cons, elem_of_nil in Hin.
    destruct Hin as [->|[->|[->|[->|[->|[->|[->|[]]]]]]]];
      [apply N1 in A1|apply N2 in A2|apply S1 in A3|apply S2 in A4
      |apply S3 in A5|apply S4 in A6|apply S5 in A7]; congruence.
Qed.

(** X4. The decimal numerals of the integers from -1000 to 1000 convert to
    these integers, and among them the numerals of 0, 1, ..., 100 are the
    ones that parse as a mark. *)
Theorem decimal_numerals_as_marks (n : Z) :
  -1000 <= n <= 1000 ->
  Number (decimal n) = of_Z n /\
  (parses_as_mark (decimal n) <-> 0 <= n <= 100).
Proof.
  intros Hn.
  pose (P := fun n =>
    same_number (Number (decimal n)) (of_Z n) &&
    negb (bool_decide (decimal n = [])) &&
    Bool.eqb (mark_accepted (Number (decimal n))) ((0 <=? n) && (n <=? 100))).
  assert (HP : P n = true).
  { apply (forallb_seqZ P (-1000) 2001); [vm_compute; reflexivity | lia]. }
  unfold P in HP. rewrite !andb_true_iff in HP. destruct HP as [[HN Hne] Hacc].
  apply same_number_eq in HN. apply negb_true_iff, bool_decide_eq_false in Hne.
  apply Bool.eqb_prop in Hacc.
  split; [exact HN|]. rewrite parses_as_mark_iff, Hacc.
  rewrite andb_true_iff, Z.leb_le, Z.leb_le. tauto.
Qed.

Lemma decimal_numerals_as_marks_witness :
  Number (decimal 100) = of_Z 100 /\ (parses_as_mark (decimal 100) <-> 0 <= 100 <= 100).
Proof. apply (decimal_numerals_as_marks 100). lia. Defined.

(** X21. A mark field that holds white space and nothing else is not
    reported: it is converted to the number 0 and passes as the mark 0. *)
Theorem blank_mark_passes_as_zero (v : FormValues) (s : SubjectField)
    (raw : jsstring) :
  s ∈ SUBJECTS -> get v (key s) = Some raw ->
  raw <> [] -> forallb is_whitespace raw = true ->
  Number raw = of_Z 0 /\ validateForm v !! key s = None.
Proof.
  intros Hs Hget Hne Hws.
  assert (HN : Number raw = of_Z 0).
  { unfold Number. rewrite (proj2 (trim_nil_iff raw) Hws). reflexivity. }
  split; [exact HN|].
  apply eq_None_not_Some. rewrite (validateForm_subject v s raw Hs Hget).
  intros Hnot. apply Hnot. split; [exact Hne|].
  exists 0. split; [lia|]. rewrite HN. vm_compute. reflexivity.
Qed.

Lemma blank_mark_passes_as_zero_witness :
  Number (lit "  ") = of_Z 0 /\
  validateForm (sample_form (lit "  ")) !! "maths" = None.
Proof.
  apply (blank_mark_passes_as_zero (sample_form (lit "  "))
           {| key := "maths"; label := lit "Mathematics";
              icon := [55357; 56528]%N |} (lit "  ")).
  - left.
  - reflexivity.
  - discriminate.
  - reflexivity.
Defined.

End more_validation.

(** ** The component: editing, calculating and adding *)

Section component.
Import JS App Component.

(** *** trim *)

Lemma trimStart_split s :
  exists ws, s = ws ++ trimStart s /\ forallb is_whitespace ws = true /\
    (forall c, head (trimStart s) = Some c -> is_whitespace c = false).
Proof.
  induction s as [|c s (ws & Hs & Hws & Hhead)]; simpl.
  - exists []. split; [reflexivity|]. split; [reflexivity|]. discriminate.
  - destruct (is_whitespace c) eqn:Hc.
    + exists (c :: ws). split; [simpl; congruence|].
      split; [simpl; rewrite Hc; exact Hws|exact Hhead].
    + exists []. split; [reflexivity|]. split; [reflexivity|].
      simpl. intros ? [= <-]. exact Hc.
Qed.

Lemma last_rev_head {A} (l : list A) : last (rev l) = head l.
Proof. destruct l as [|a l]; [reflexivity|]. simpl. apply last_snoc. Qed.

(** [trim] removes white space at both ends and nothing else. *)
Lemma trim_split s :
  exists l r, s = l ++ trim s ++ r /\
    forallb is_whitespace l = true /\ forallb is_whitespace r = true /\
    trimmed (trim s).
Proof.
  destruct (trimStart_split s) as (l & Hs & Hl & Hhead).
  destruct (trimStart_split (rev (trimStart s))) as (ws & Hr & Hws & Hlast).
  exists l, (rev ws). unfold trim, trimEnd.
  assert (Ht : trimStart s = rev (trimStart (rev (trimStart s))) ++ rev ws).
  { rewrite <- rev_app_distr, <- Hr, rev_involutive. reflexivity. }
  split; [rewrite <- Ht; exact Hs|]. split; [exact Hl|]. split.
  { rewrite forallb_forall in *. intros c Hc. apply Hws.
    apply in_rev. exact Hc. }
  intros c [Hc|Hc].
  - apply Hhead. rewrite Ht.
    destruct (rev (trimStart (rev (trimStart s)))); [discriminate|exact Hc].
  - apply Hlast. rewrite <- last_rev_head. exact Hc.
Qed.

(** *** The numbers that are handed to the actor *)

Lemma BigInt_mark x m :
  0 <= m <= 100 -> eqb x (of_Z m) = true -> BigInt x = Some m.
Proof.
  intros Hm Hx. destruct (eqb_of_Z x m Hm Hx) as [->|[-> ->]]; [|reflexivity].
  pose (P := fun m => match BigInt (of_Z m) with
                      | Some z => z =? m | None => false end).
  assert (HP : P m = true).
  { apply (forallb_seqZ P 0 101); [vm_compute; reflexivity | lia]. }
  unfold P in HP. destruct (BigInt (of_Z m)); [|discriminate].
  apply Z.eqb_eq in HP. congruence.
Qed.

Lemma BigInt_total t : 0 <= t <= 500 -> BigInt (of_Z t) = Some t.
Proof.
  intros Ht.
  pose (P := fun m => match BigInt (of_Z m) with
                      | Some z => z =? m | None => false end).
  assert (HP : P t = true).
  { apply (forallb_seqZ P 0 501); [vm_compute; reflexivity | lia]. }
  unfold P in HP. destruct (BigInt (of_Z t)); [|discriminate].
  apply Z.eqb_eq in HP. congruence.
Qed.

(** *** What holds in every state of the component *)

Lemma handleCalculate_cases st :
  (validateForm (formValues st) = ∅ /\
   handleCalculate st =
     toast (toast_success (lit "Results calculated successfully!"))
       (setCalculated (Some (calculation (formValues st)))
          (setErrors ∅ st))) \/
  (validateForm (formValues st) <> ∅ /\
   handleCalculate st =
     toast (toast_error (lit "Please fix the errors before calculating"))
       (setErrors (validateForm (formValues st)) st)).
Proof.
  unfold handleCalculate. cbn [formValues setErrors].
  destruct (decide (validateForm (formValues st) = ∅)) as [He|Hne].
  - left. split; [exact He|]. rewrite He, map_size_empty. reflexivity.
  - right. split; [exact Hne|].
    assert (Hs : (0 <? size (validateForm (formValues st)))%nat = true).
    { apply Nat.ltb_lt.
      destruct (decide (size (validateForm (formValues st)) = 0%nat)) as [H0|];
        [|lia]. apply map_size_empty_inv in H0. contradiction. }
    rewrite Hs. reflexivity.
Qed.

(** The call of [addResult] leaves the form and the result as they are. *)
Lemma handleAddToRecords_call_app ui : app (handleAddToRecords_call ui).1 = app ui.
Proof.
  unfold handleAddToRecords_call. destruct (calculated (app ui)); reflexivity.
Qed.

Lemma component_inv_step ui ev : component_inv ui -> component_inv (step ui ev).
Proof.
  intros [Hmsg Hcalc]. unfold component_inv.
  destruct ev as [f v| | |captured ok|ok]; cbn [step].
  - split.
    + cbn [app]. unfold handleChange.
      destruct (errors (app ui) !! field_key f) as [[|? ?]|]; cbn; try exact Hmsg.
      intros k msg Hk. apply lookup_delete_Some in Hk. apply (Hmsg k msg), Hk.
    + cbn [app]. unfold handleChange.
      destruct (errors (app ui) !! field_key f) as [[|? ?]|]; cbn; discriminate.
  - cbn [app]. destruct (handleCalculate_cases (app ui)) as [[Hv ->]|[Hv ->]].
    + split; cbn.
      * intros k msg. rewrite lookup_empty. discriminate.
      * intros c [= <-]. auto.
    + split; cbn.
      * apply validateForm_messages.
      * intros c Hc. destruct (Hcalc c Hc) as [Hv' _]. contradiction.
  - unfold component_inv. rewrite handleAddToRecords_call_app.
    split; assumption.
  - unfold handleAddToRecords_settle. destruct ok; cbn.
    + split; [|discriminate]. intros k msg. rewrite lookup_empty. discriminate.
    + split; assumption.
  - cbn. split; assumption.
Qed.

Lemma reachable_component_inv ui : Component.reachable ui -> component_inv ui.
Proof.
  intros [evs <-].
  assert (H0 : component_inv initial).
  { unfold component_inv. split; cbn.
    - intros k msg. rewrite lookup_empty. discriminate.
    - discriminate. }
  revert H0. generalize initial. induction evs as [|ev evs IH]; intros ui H0.
  - exact H0.
  - simpl. apply IH, component_inv_step, H0.
Qed.

Lemma accepted_form_names v :
  validateForm v = ∅ ->
  trim (studentName v) <> [] /\ trim (rollNumber v) <> [].
Proof.
  intros Hv.
  pose proof (validateForm_names v "studentName" ltac:(tauto)) as H1.
  pose proof (validateForm_names v "rollNumber" ltac:(tauto)) as H2.
  rewrite Hv, lookup_empty, validateNames_lookup in H1, H2.
  rewrite bool_decide_eq_false_2 in H1 by discriminate.
  rewrite bool_decide_eq_true_2 in H1, H2 by reflexivity.
  split; intros Hblank.
  - rewrite bool_decide_eq_true_2 in H1 by exact Hblank. discriminate.
  - rewrite bool_decide_eq_true_2 in H2 by exact Hblank. discriminate.
Qed.

Lemma get_set v f value : get (Component.set v f value) (field_key f) = Some value.
Proof. destruct f; reflexivity. Qed.

Lemma get_set_other v f g value :
  g <> f -> get (Component.set v f value) (field_key g) = get v (field_key g).
Proof. destruct f, g; intros H; try reflexivity; contradiction. Qed.

(** X5. [handleChange] puts the value into the one field, takes away the
    error of that field and of no other, and drops the calculated result;
    it raises no notification. *)
Theorem handleChange_edits_one_field (ui : UI) (f : Field) (value : jsstring) :
  Component.reachable ui ->
  let st' := handleChange f value (app ui) in
  get (formValues st') (field_key f) = Some value /\
  (forall g, g <> f ->
     get (formValues st') (field_key g)
       = get (formValues (app ui)) (field_key g)) /\
  errors st' !! field_key f = None /\
  (forall k, k <> field_key f -> errors st' !! k = errors (app ui) !! k) /\
  calculated st' = None /\
  toasts st' = toasts (app ui).
Proof.
  intros Hreach. apply reachable_component_inv in Hreach.
  destruct Hreach as [Hmsg _]. intros st'. unfold st', handleChange.
  destruct (errors (app ui) !! field_key f) as [[|c msg]|] eqn:He;
    cbn [setErrors setCalculated setFormValues formValues errors calculated toasts].
  - exfalso. exact (Hmsg _ _ He eq_refl).
  - split; [apply get_set|]. split; [intros g Hg; apply get_set_other, Hg|].
    split; [apply lookup_delete_eq|].
    split; [intros k Hk; apply lookup_delete_ne; congruence|]. auto.
  - split; [apply get_set|]. split; [intros g Hg; apply get_set_other, Hg|].
    auto.
Qed.

Lemma handleChange_edits_one_field_witness :
  calculated (handleChange field_maths (lit "35")
                (app (fold_left step [Change field_maths (lit "34"); Calculate]
                        initial))) = None.
Proof.
  apply (handleChange_edits_one_field
           (fold_left step [Change field_maths (lit "34"); Calculate] initial)
           field_maths (lit "35")).
  eexists. reflexivity.
Defined.

(** X6. Whatever the user did before, a calculated result that the
    component holds is the result of the form as it is now, and this form
    passes validation: the result is never out of date. *)
Theorem calculated_is_current (ui : UI) (c : CalculatedResult) :
  Component.reachable ui ->
  calculated (app ui) = Some c ->
  validateForm (formValues (app ui)) = ∅ /\
  c = calculation (formValues (app ui)) /\
  calculated (handleCalculate (app ui)) = Some c.
Proof.
  intros Hreach Hc. apply reachable_component_inv in Hreach.
  destruct Hreach as [_ Hcalc]. destruct (Hcalc c Hc) as [Hv ->].
  split; [exact Hv|]. split; [reflexivity|].
  rewrite (handleCalculate_accepted _ Hv). reflexivity.
Qed.

Lemma calculated_is_current_witness :
  validateForm (formValues (app (fold_left step
     [Change field_studentName (lit "Arjun Kumar");
      Change field_rollNumber (lit "2024CS001");
      Change field_maths (lit "34"); Change field_science (lit "90");
      Change field_english (lit "90"); Change field_tamil (lit "90");
      Calculate; Change field_computerScience (lit "90"); Calculate]
     initial))) = ∅.
Proof.
  eapply (calculated_is_current (fold_left step
     [Change field_studentName (lit "Arjun Kumar");
      Change field_rollNumber (lit "2024CS001");
      Change field_maths (lit "34"); Change field_science (lit "90");
      Change field_english (lit "90"); Change field_tamil (lit "90");
      Calculate; Change field_computerScience (lit "90"); Calculate]
     initial)).
  - eexists. reflexivity.
  - vm_compute. reflexivity.
Defined.

(** X7. What [handleAddToRecords] hands to [addResult] is consistent: the
    name and the roll number are those of the form without white space at
    the ends and are not empty, the five marks are integers in [0,100], the
    total is their sum, the average is this total divided by 5 and the grade
    is the grade of [computeGrade]. With the actor at hand the conversions of
    [useAddResult] do not throw, and the actor is called with these integers,
    with the texts, the average and the grade as they are. *)
Theorem handleAddToRecords_submits_consistent
    (ui ui' : UI) (p : Queries.AddParams) :
  Component.reachable ui ->
  handleAddToRecords_call ui = (ui', Some p) ->
  let v := formValues (app ui) in
  (Queries.rollNumber p = trim (rollNumber v) /\
   Queries.rollNumber p <> [] /\ trimmed (Queries.rollNumber p)) /\
  (Queries.studentName p = trim (studentName v) /\
   Queries.studentName p <> [] /\ trimmed (Queries.studentName p)) /\
  exists m1 m2 m3 m4 m5 x1 x2 x3 x4 x5,
    (0 <= m1 <= 100 /\ Queries.maths p = Some x1 /\ eqb x1 (of_Z m1) = true) /\
    (0 <= m2 <= 100 /\ Queries.science p = Some x2 /\ eqb x2 (of_Z m2) = true) /\
    (0 <= m3 <= 100 /\ Queries.english p = Some x3 /\ eqb x3 (of_Z m3) = true) /\
    (0 <= m4 <= 100 /\ Queries.tamil p = Some x4 /\ eqb x4 (of_Z m4) = true) /\
    (0 <= m5 <= 100 /\ Queries.computerScience p = Some x5 /\
     eqb x5 (of_Z m5) = true) /\
    Queries.total p = of_Z (m1 + m2 + m3 + m4 + m5) /\
    Queries.average p = div (of_Z (m1 + m2 + m3 + m4 + m5)) (of_Z 5) /\
    Queries.grade p
      = computeGrade (Queries.average p) (marks_of x1 x2 x3 x4 x5) /\
    forall now,
      Queries.addResult_mutationFn true now p
      = inr {| Queries.arg_rollNumber := trim (rollNumber v);
               Queries.arg_studentName := trim (studentName v);
               Queries.arg_maths := m1; Queries.arg_science := m2;
               Queries.arg_english := m3; Queries.arg_tamil := m4;
               Queries.arg_computerScience := m5;
               Queries.arg_total := m1 + m2 + m3 + m4 + m5;
               Queries.arg_average := Queries.average p;
               Queries.arg_grade := Queries.grade p;
               Queries.arg_timestamp := now |}.
Proof.
  intros Hreach Hcall v. apply reachable_component_inv in Hreach.
  destruct Hreach as [_ Hcalc]. unfold handleAddToRecords_call in Hcall.
  destruct (calculated (app ui)) as [c|] eqn:Hc; [|discriminate].
  destruct (Hcalc c eq_refl) as [Hv Ec]. fold v in Hv, Hcall, Ec.
  destruct (accepted_form_names v Hv) as [Hname Hroll].
  destruct (accepted_form_marks v Hv)
    as (m1 & m2 & m3 & m4 & m5 & [H1 E1] & [H2 E2] & [H3 E3] & [H4 E4] & [H5 E5]).
  assert (Hm : marks c = marks_of (Number (maths v)) (Number (science v))
                           (Number (english v)) (Number (tamil v))
                           (Number (computerScience v))).
  { rewrite Ec. reflexivity. }
  assert (Ht : total c = of_Z (m1 + m2 + m3 + m4 + m5)).
  { rewrite Ec. unfold calculation. cbn [total].
    apply total_of_marks; assumption. }
  assert (Ha : average c = div (total c) (of_Z 5)).
  { rewrite Ec. reflexivity. }
  assert (Hg : grade c = computeGrade (average c) (marks c)).
  { rewrite Ec. reflexivity. }
  clear Ec Hc Hcalc. injection Hcall as _ <-.
  cbn [Queries.rollNumber Queries.studentName
       Queries.maths Queries.science Queries.english Queries.tamil
       Queries.computerScience Queries.total Queries.average Queries.grade].
  assert (P1 : property "maths" (marks c) = Some (Number (maths v)))
    by (rewrite Hm; reflexivity).
  assert (P2 : property "science" (marks c) = Some (Number (science v)))
    by (rewrite Hm; reflexivity).
  assert (P3 : property "english" (marks c) = Some (Number (english v)))
    by (rewrite Hm; reflexivity).
  assert (P4 : property "tamil" (marks c) = Some (Number (tamil v)))
    by (rewrite Hm; reflexivity).
  assert (P5 : property "computerScience" (marks c)
               = Some (Number (computerScience v)))
    by (rewrite Hm; reflexivity).
  rewrite P1, P2, P3, P4, P5.
  split.
  { split; [reflexivity|]. split; [exact Hroll|].
    destruct (trim_split (rollNumber v)) as (? & ? & _ & _ & _ & Htr). exact Htr. }
  split.
  { split; [reflexivity|]. split; [exact Hname|].
    destruct (trim_split (studentName v)) as (? & ? & _ & _ & _ & Htr). exact Htr. }
  exists m1, m2, m3, m4, m5.
  exists (Number (maths v)), (Number (science v)), (Number (english v)),
         (Number (tamil v)), (Number (computerScience v)).
  split; [auto|]. split; [auto|]. split; [auto|]. split; [auto|].
  split; [auto|]. split; [exact Ht|].
  split; [rewrite Ha, Ht; reflexivity|].
  split; [rewrite Hg, Hm; reflexivity|].
  intros now. unfold Queries.addResult_mutationFn, Queries.toBigInt.
  cbn [negb Queries.maths Queries.science Queries.english Queries.tamil
       Queries.computerScience Queries.total Queries.average Queries.grade
       Queries.rollNumber Queries.studentName].
  rewrite (BigInt_mark _ m1 H1 E1). cbn [Queries.bind].
  rewrite (BigInt_mark _ m2 H2 E2). cbn [Queries.bind].
  rewrite (BigInt_mark _ m3 H3 E3). cbn [Queries.bind].
  rewrite (BigInt_mark _ m4 H4 E4). cbn [Queries.bind].
  rewrite (BigInt_mark _ m5 H5 E5). cbn [Queries.bind].
  rewrite Ht, (BigInt_total (m1 + m2 + m3 + m4 + m5)) by lia.
  reflexivity.
Qed.

Lemma handleAddToRecords_submits_consistent_witness :
  exists p, (handleAddToRecords_call
               (fold_left step
                  [Change field_studentName (lit " Arjun Kumar ");
                   Change field_rollNumber (lit "2024CS001");
                   Change field_maths (lit "34"); Change field_science (lit "90");
                   Change field_english (lit "90"); Change field_tamil (lit "90");
                   Change field_computerScience (lit "90"); Calculate]
                  initial)).2 = Some p /\
    Queries.studentName p = lit "Arjun Kumar" /\
    Queries.total p = of_Z 394.
Proof.
  eexists. split; [vm_compute; reflexivity|].
  split; [reflexivity|].
  edestruct (handleAddToRecords_submits_consistent
               (fold_left step
                  [Change field_studentName (lit " Arjun Kumar ");
                   Change field_rollNumber (lit "2024CS001");
                   Change field_maths (lit "34"); Change field_science (lit "90");
                   Change field_english (lit "90"); Change field_tamil (lit "90");
                   Change field_computerScience (lit "90"); Calculate]
                  initial)) as (_ & _ & _).
  - eexists. reflexivity.
  - vm_compute. reflexivity.
  - vm_compute. reflexivity.
Defined.

(** X8. After a record was added the form is empty and nothing is
    calculated, and [handleAddToRecords] calls nothing until
    [handleCalculate] has run again; after an add that failed, the form and
    the result are as before, and a retry hands over the same parameters. *)
Theorem handleAddToRecords_once (ui : UI) (captured : FormValues)
    (evs : list Event) :
  (Forall (fun ev => ev <> Calculate) evs ->
   formValues (app (handleAddToRecords_settle captured true ui)) = emptyForm /\
   (handleAddToRecords_call
      (fold_left step evs (handleAddToRecords_settle captured true ui))).2
     = None) /\
  formValues (app (handleAddToRecords_settle captured false ui))
    = formValues (app ui) /\
  calculated (app (handleAddToRecords_settle captured false ui))
    = calculated (app ui) /\
  (handleAddToRecords_call (handleAddToRecords_settle captured false ui)).2
    = (handleAddToRecords_call ui).2.
Proof.
  split.
  - intros Hevs. split; [reflexivity|].
    assert (Hnone : calculated (app (handleAddToRecords_settle captured true ui))
                    = None) by reflexivity.
    revert Hnone. generalize (handleAddToRecords_settle captured true ui).
    induction Hevs as [|ev evs Hev _ IH]; intros u Hnone.
    + simpl. unfold handleAddToRecords_call. rewrite Hnone. reflexivity.
    + simpl. apply IH.
      destruct ev as [f v| | |cap ok|ok]; cbn [step].
      * cbn [app]. unfold handleChange.
        destruct (errors (app u) !! field_key f) as [[|? ?]|]; reflexivity.
      * contradiction.
      * rewrite handleAddToRecords_call_app. exact Hnone.
      * unfold handleAddToRecords_settle. destruct ok; [reflexivity|exact Hnone].
      * exact Hnone.
  - split; [reflexivity|]. split; [reflexivity|].
    unfold handleAddToRecords_call, handleAddToRecords_settle.
    cbn [app toast calculated formValues].
    destruct (calculated (app ui)); reflexivity.
Qed.

(** X9. The badge of the table and the badge of the summary have the same
    class exactly for the four grades "A", "B", "C" and "Fail", which are the
    only ones that [computeGrade] returns. *)
Theorem badge_classes_agree (g : jsstring) (average : number) (marks : Marks) :
  (GradeBadge_class g = Class (summary_class g) <->
   g ∈ [lit "A"; lit "B"; lit "C"; lit "Fail"]) /\
  computeGrade average marks ∈ [lit "A"; lit "B"; lit "C"; lit "Fail"].
Proof.
  split.
  - unfold GradeBadge_class, summary_class.
    rewrite !elem_of_cons, elem_of_nil.
    repeat case_bool_decide; subst; split; intros Hg; try tauto;
      try reflexivity; try discriminate Hg.
    all: try (exfalso; vm_compute in Hg; discriminate Hg).
    all: tauto.
  - unfold computeGrade. rewrite !elem_of_cons.
    repeat case_match; tauto.
Qed.

End component.

(** ** More on the store *)

Section more_store.
Import Backend.

Lemma run_app_replies st cs1 cs2 :
  (run st (cs1 ++ cs2)).2 = (run st cs1).2 ++ (run (run st cs1).1 cs2).2.
Proof.
  revert st. induction cs1 as [|c cs1 IH]; intros st; [reflexivity|].
  rewrite <- app_comm_cons, !run_cons. cbn [fst snd app]. rewrite IH.
  reflexivity.
Qed.

Lemma call_clearAll st : call st CallClearAll = (init, ReplyUnit).
Proof. reflexivity. Qed.

Lemma inv_fresh st : inv st -> results st !! nextId st = None.
Proof.
  intros Hinv. destruct (results st !! nextId st) as [r|] eqn:E; [|reflexivity].
  destruct (Hinv _ _ E). lia.
Qed.

(** A list that is sorted by id and holds the records of the store is the
    list that [getResults] returns. *)
Lemma listing_unique st l :
  inv st -> StronglySorted compare_le l ->
  l ≡ₚ (map_to_list (results st)).*2 ->
  l = sort (Map_values (results st)).
Proof.
  intros Hinv Hl Hp.
  apply (StronglySorted_unique_strong compare_le);
    [|exact Hl|apply sort_StronglySorted|].
  - intros x1 x2 H1 H2 H12 H21.
    apply (proj1 (compare_le_iff _ _)) in H12.
    apply (proj1 (compare_le_iff _ _)) in H21.
    rewrite Hp in H1. rewrite listing_Permutation in H2.
    apply list_elem_of_fmap in H1. destruct H1 as ([k1 r1] & -> & H1).
    apply list_elem_of_fmap in H2. destruct H2 as ([k2 r2] & -> & H2).
    apply elem_of_map_to_list in H1, H2. cbn [snd] in *.
    destruct (Hinv _ _ H1) as [E1 _], (Hinv _ _ H2) as [E2 _].
    assert (k1 = k2) by lia. subst k2. congruence.
  - rewrite listing_Permutation. exact Hp.
Qed.

Lemma listed_id_below st r :
  inv st -> r ∈ sort (Map_values (results st)) -> (id r < nextId st)%N.
Proof.
  intros Hinv Hr. apply elem_of_listing in Hr. destruct Hr as [k Hk].
  destruct (Hinv _ _ Hk) as [-> ?]. assumption.
Qed.

Lemma listed_ids st k :
  inv st ->
  (k ∈ id <$> sort (Map_values (results st)) <-> is_Some (results st !! k)).
Proof.
  intros Hinv. rewrite list_elem_of_fmap. split.
  - intros (r & -> & Hr). apply elem_of_listing in Hr.
    destruct Hr as [k Hk]. destruct (Hinv k r Hk) as [-> _]. eauto.
  - intros [r Hr]. exists r. destruct (Hinv k r Hr) as [Hid _].
    split; [congruence|]. apply elem_of_listing. eauto.
Qed.

Lemma StronglySorted_filter {A} (R : relation A) (P : A -> Prop)
    `{forall x, Decision (P x)} (l : list A) :
  StronglySorted R l -> StronglySorted R (filter P l).
Proof.
  induction 1 as [|a l Hl IH Hall]; [constructor|].
  rewrite filter_cons. destruct (decide (P a)); [|exact IH].
  constructor; [exact IH|]. apply Forall_forall. intros x Hx.
  apply list_elem_of_filter in Hx. destruct Hx as [_ Hx].
  rewrite Forall_forall in Hall. auto.
Qed.

Lemma filter_all {A} (P : A -> Prop) `{forall x, Decision (P x)} (l : list A) :
  Forall P l -> filter P l = l.
Proof.
  induction 1 as [|a l Ha Hl IH]; [reflexivity|].
  rewrite filter_cons_True by exact Ha. rewrite IH. reflexivity.
Qed.

(** X10. In a state the actor can reach, [addResult] puts the new record at
    the end of what [getResults] returns and leaves the records before it as
    they were. *)
Theorem addResult_appends_to_listing rn sn m s e t cs tot avg g ts (st : State) :
  reachable st ->
  exists l st',
    getResults st = Ok l st /\
    call st (CallAddResult rn sn m s e t cs tot avg g ts)
      = (st', ReplyNat (nextId st)) /\
    getResults st'
      = Ok (l ++ [{| id := nextId st; rollNumber := rn; studentName := sn;
                     maths := m; science := s; english := e; tamil := t;
                     computerScience := cs; total := tot; average := avg;
                     grade := g; timestamp := ts |}]) st'.
Proof.
  intros Hreach. apply reachable_inv in Hreach.
  eexists. eexists. split; [reflexivity|]. split; [reflexivity|].
  unfold getResults. f_equal. symmetry. apply listing_unique.
  - apply (inv_call st (CallAddResult rn sn m s e t cs tot avg g ts) Hreach).
  - apply StronglySorted_app_2.
    + intros x1 x2 H1 H2. apply list_elem_of_singleton in H2. subst x2.
      apply compare_le_iff. cbn [id].
      pose proof (listed_id_below st x1 Hreach H1). lia.
    + apply sort_StronglySorted.
    + repeat constructor.
  - cbn [results]. rewrite map_to_list_insert by (apply inv_fresh, Hreach).
    rewrite fmap_cons. cbn [snd]. rewrite <- listing_Permutation.
    rewrite Permutation_app_comm. reflexivity.
Qed.

Lemma addResult_appends_to_listing_witness :
  exists l st',
    getResults (run init sample_calls).1 = Ok l (run init sample_calls).1 /\
    call (run init sample_calls).1 sample_add = (st', ReplyNat 4%N) /\
    id <$> l = [0; 2; 3]%N /\
    exists r, getResults st' = Ok (l ++ [r]) st' /\ id r = 4%N.
Proof.
  destruct (addResult_appends_to_listing "2024CS001" "Arjun Kumar" 40 40 40 40
              40 200 (JS.of_Z 40) "C" 1762128000000 (run init sample_calls).1)
    as (l & st' & Hl & Hcall & Hget).
  { exists sample_calls. reflexivity. }
  exists l, st'. split; [exact Hl|]. split; [exact Hcall|]. split.
  - vm_compute in Hl. injection Hl as <-. reflexivity.
  - eexists. split; [exact Hget|]. reflexivity.
Defined.

(** X11. In a state the actor can reach, what [getResults] returns after a
    call of [deleteResult i] is what it returned before without the record
    whose id is [i], the other records staying in their order; this also holds
    for a call that is rejected, which changes nothing. *)
Theorem deleteResult_filters_listing (st : State) (i : N) :
  reachable st ->
  exists l,
    getResults st = Ok l st /\
    getResults (call st (CallDeleteResult i)).1
      = Ok (filter (fun r => id r <> i) l) (call st (CallDeleteResult i)).1 /\
    length (filter (fun r => id r <> i) l)
      = (if Map_containsKey (results st) i then pred (length l) else length l).
Proof.
  intros Hreach. apply reachable_inv in Hreach.
  eexists. split; [reflexivity|].
  assert (Hl : sort (Map_values (results (call st (CallDeleteResult i)).1))
               = filter (fun r => id r <> i) (sort (Map_values (results st)))).
  { symmetry. apply listing_unique.
    - apply inv_call, Hreach.
    - apply StronglySorted_filter, sort_StronglySorted.
    - rewrite listing_Permutation. cbn [call]. unfold deleteResult.
      destruct (Map_containsKey (results st) i) eqn:E; cbn [negb commit fst results].
      + apply Map_containsKey_true in E. destruct E as [r Hr].
        rewrite <- (map_to_list_delete _ _ _ Hr). rewrite fmap_cons. cbn [snd].
        destruct (Hreach _ _ Hr) as [Hid _].
        rewrite filter_cons_False by (intros Hne; apply Hne, Hid).
        rewrite filter_all; [reflexivity|].
        apply Forall_forall. intros x Hx.
        apply list_elem_of_fmap in Hx. destruct Hx as ([k r'] & -> & Hx).
        apply elem_of_map_to_list in Hx. cbn [snd].
        apply lookup_delete_Some in Hx. destruct Hx as [Hne Hx].
        destruct (Hreach _ _ Hx) as [Hid' _]. congruence.
      + apply Map_containsKey_false in E.
        rewrite filter_all; [reflexivity|].
        apply Forall_forall. intros x Hx.
        apply list_elem_of_fmap in Hx. destruct Hx as ([k r'] & -> & Hx).
        apply elem_of_map_to_list in Hx. cbn [snd].
        destruct (Hreach _ _ Hx) as [Hid' _]. congruence. }
  split; [unfold getResults; rewrite Hl; reflexivity|].
  rewrite <- Hl, !length_listing. cbn [call]. unfold deleteResult.
  destruct (Map_containsKey (results st) i) eqn:E; cbn [negb commit fst results].
  - apply map_size_delete_Some, Map_containsKey_true, E.
  - reflexivity.
Qed.

Lemma deleteResult_filters_listing_witness :
  exists l,
    getResults (run init sample_calls).1 = Ok l (run init sample_calls).1 /\
    id <$> l = [0; 2; 3]%N /\
    exists l', getResults
                 (call (run init sample_calls).1 (CallDeleteResult 2)).1
               = Ok l' (call (run init sample_calls).1 (CallDeleteResult 2)).1 /\
      l' = filter (fun r => id r <> 2%N) l /\ length l' = 2%nat.
Proof.
  destruct (deleteResult_filters_listing (run init sample_calls).1 2)
    as (l & Hl & Hget & Hlen).
  { exists sample_calls. reflexivity. }
  exists l. split; [exact Hl|].
  assert (Hids : id <$> l = [0; 2; 3]%N).
  { vm_compute in Hl. injection Hl as <-. reflexivity. }
  split; [exact Hids|].
  eexists. split; [exact Hget|]. split; [reflexivity|].
  rewrite Hlen. apply (f_equal length) in Hids. rewrite length_fmap in Hids.
  rewrite Hids. reflexivity.
Defined.

Lemma call_lookup_other st c k :
  is_clearAll c = false -> c <> CallDeleteResult k ->
  (k < nextId st)%N ->
  results (call st c).1 !! k = results st !! k.
Proof.
  intros Hc Hne Hk.
  destruct c as [rn sn m s e t cs tot avg g ts | | j |]; try discriminate Hc.
  - cbn [call commit addResult fst results]. apply lookup_insert_ne. lia.
  - reflexivity.
  - cbn [call]. unfold deleteResult.
    destruct (Map_containsKey (results st) j); cbn [negb commit fst results].
    + apply lookup_delete_ne. congruence.
    + reflexivity.
Qed.

(** X12. In a sequence of calls without [clearAll], a record that is in the
    store stays there unchanged as long as no call of [deleteResult] names its
    key, and is gone at the end when one does: no call changes a record, and
    no later [addResult] brings the key back. *)
Theorem record_kept_until_deleted (st : State) (cs : list Call) (k : N)
    (r : StudentResult) :
  reachable st ->
  Forall (fun c => is_clearAll c = false) cs ->
  results st !! k = Some r ->
  (CallDeleteResult k ∉ cs -> results (run st cs).1 !! k = Some r) /\
  (CallDeleteResult k ∈ cs -> results (run st cs).1 !! k = None).
Proof.
  intros Hreach Hcs. apply reachable_inv in Hreach. revert st Hreach.
  induction Hcs as [|c cs Hc Hcs IH]; intros st Hinv Hr.
  { split; [intros _; exact Hr|]. intros Hin. apply elem_of_nil in Hin. tauto. }
  rewrite run_cons. cbn [fst].
  destruct (Hinv _ _ Hr) as [_ Hk].
  assert (Hdec : c = CallDeleteResult k \/ c <> CallDeleteResult k).
  { destruct c as [| | j |]; try (right; discriminate).
    destruct (decide (j = k)) as [->|Hjk]; [left; reflexivity|].
    right. congruence. }
  destruct Hdec as [->|Hne].
  - split; [intros Hnotin; exfalso; apply Hnotin; left|].
    intros _.
    assert (Hgone : gone k (call st (CallDeleteResult k)).1).
    { split; [apply inv_call, Hinv|]. cbn [call]. unfold deleteResult.
      rewrite (proj2 (Map_containsKey_true _ _)) by eauto.
      cbn [negb commit fst results nextId]. split; [|exact Hk].
      apply lookup_delete_eq. }
    apply (gone_run k _ cs Hcs Hgone).
  - destruct (IH (call st c).1) as [IH1 IH2].
    + apply inv_call, Hinv.
    + rewrite call_lookup_other by assumption. exact Hr.
    + split.
      * intros Hnotin. apply IH1. intros Hin. apply Hnotin. right. exact Hin.
      * intros Hin. apply elem_of_cons in Hin. destruct Hin as [Heq|Hin].
        -- congruence.
        -- apply IH2, Hin.
Qed.

Lemma record_kept_until_deleted_witness :
  (exists r, results (run init [sample_add; sample_add]).1 !! 0%N = Some r /\
     results (run (run init [sample_add; sample_add]).1
                [sample_add; CallGetResults; sample_add]).1 !! 0%N = Some r) /\
  results (run (run init [sample_add; sample_add]).1
             [CallDeleteResult 1; sample_add; CallGetResults; sample_add]).1
    !! 1%N = None.
Proof.
  split.
  - eexists. split; [reflexivity|].
    apply (record_kept_until_deleted (run init [sample_add; sample_add]).1
             [sample_add; CallGetResults; sample_add] 0).
    + exists [sample_add; sample_add]. reflexivity.
    + repeat constructor.
    + reflexivity.
    + intros Hin. repeat (apply elem_of_cons in Hin; destruct Hin as [Hin|Hin];
                          [discriminate Hin|]).
      apply elem_of_nil in Hin. exact Hin.
  - eapply (record_kept_until_deleted (run init [sample_add; sample_add]).1
              [CallDeleteResult 1; sample_add; CallGetResults; sample_add] 1).
    + exists [sample_add; sample_add]. reflexivity.
    + repeat constructor.
    + reflexivity.
    + left.
Defined.

(** X13. In a state the actor can reach, adding a record and deleting it
    under the id that [addResult] returned gives back the store as it was,
    with the counter one further: the id is not given again. *)
Theorem addResult_then_deleteResult rn sn m s e t cs tot avg g ts (st : State) :
  reachable st ->
  run st [CallAddResult rn sn m s e t cs tot avg g ts;
          CallDeleteResult (nextId st)]
  = ({| results := results st; nextId := (nextId st + 1)%N |},
     [ReplyNat (nextId st); ReplyUnit]).
Proof.
  intros Hreach. apply reachable_inv, inv_fresh in Hreach.
  rewrite !run_cons. cbn [call commit addResult fst snd run id].
  unfold deleteResult. cbn [results nextId].
  rewrite (proj2 (Map_containsKey_true _ _))
    by (rewrite lookup_insert_eq; eauto).
  cbn [negb commit fst snd]. rewrite delete_insert_id by exact Hreach.
  reflexivity.
Qed.

Lemma addResult_then_deleteResult_witness :
  run (run init sample_calls).1 [sample_add; CallDeleteResult 4]
  = ({| results := results (run init sample_calls).1; nextId := 5 |},
     [ReplyNat 4; ReplyUnit]).
Proof.
  apply (addResult_then_deleteResult "2024CS001" "Arjun Kumar" 40 40 40 40 40
           200 (JS.of_Z 40) "C" 1762128000000 (run init sample_calls).1).
  exists sample_calls. reflexivity.
Defined.

(** X14. After [clearAll] the actor is as it was at the start: whatever was
    called before, the calls that follow have the replies and lead to the
    state that they have from the empty store. *)
Theorem clearAll_forgets_history (st : State) (before after : list Call) :
  (run st (before ++ CallClearAll :: after)).1 = (run init after).1 /\
  (run st (before ++ CallClearAll :: after)).2
    = (run st before).2 ++ ReplyUnit :: (run init after).2.
Proof.
  rewrite run_app, run_app_replies, !run_cons, call_clearAll. split; reflexivity.
Qed.

Lemma count_units_cons r rs :
  count_units (r :: rs) = ((if is_ReplyUnit r then 1 else 0) + count_units rs)%nat.
Proof. unfold count_units. simpl. destruct (is_ReplyUnit r); reflexivity. Qed.

Lemma count_adds_cons c cs :
  count_adds (c :: cs) = ((if is_addResult c then 1 else 0) + count_adds cs)%nat.
Proof. unfold count_adds. simpl. destruct (is_addResult c); reflexivity. Qed.

(** One call without [clearAll] changes the number of records by what it
    adds and what it removes. *)
Lemma call_size st c :
  inv st -> is_clearAll c = false ->
  (size (results (call st c).1) + (if is_ReplyUnit (call st c).2 then 1 else 0)
   = size (results st) + (if is_addResult c then 1 else 0))%nat.
Proof.
  intros Hinv Hc.
  destruct c as [rn sn m s e t cs tot avg g ts | | j |]; try discriminate Hc.
  - cbn [call commit addResult fst snd results is_ReplyUnit is_addResult].
    rewrite map_size_insert_None by (apply inv_fresh, Hinv). lia.
  - cbn. lia.
  - cbn [call is_addResult]. unfold deleteResult.
    destruct (Map_containsKey (results st) j) eqn:E;
      cbn [negb commit fst snd results is_ReplyUnit].
    + apply Map_containsKey_true in E.
      rewrite map_size_delete_Some by exact E.
      destruct E as [r Hr].
      assert (size (results st) <> 0%nat).
      { intros H0. apply map_size_empty_inv in H0. rewrite H0 in Hr.
        rewrite lookup_empty in Hr. discriminate. }
      lia.
    + lia.
Qed.

(** X15. In a sequence of calls without [clearAll], from a state the actor
    can reach, no record is lost or made up: the number of records at the
    end, plus the number of [deleteResult] calls that went through, is the
    number of records at the beginning plus the number of [addResult]
    calls. *)
Theorem records_are_counted (st : State) (cs : list Call) :
  reachable st ->
  Forall (fun c => is_clearAll c = false) cs ->
  (size (results (run st cs).1) + count_units (run st cs).2
   = size (results st) + count_adds cs)%nat.
Proof.
  intros Hreach Hcs. apply reachable_inv in Hreach. revert st Hreach.
  induction Hcs as [|c cs Hc Hcs IH]; intros st Hinv.
  { unfold count_units, count_adds. simpl. reflexivity. }
  rewrite run_cons. cbn [fst snd]. rewrite count_units_cons, count_adds_cons.
  pose proof (call_size st c Hinv Hc) as Hcall.
  pose proof (IH (call st c).1 (inv_call st c Hinv)) as Hrest.
  lia.
Qed.

Lemma records_are_counted_witness :
  (size (results (run init sample_calls).1) + 1 = 0 + 4)%nat.
Proof.
  apply (records_are_counted init sample_calls).
  - exists []. reflexivity.
  - repeat constructor.
Defined.

(** X16. Without [clearAll] the counter goes up by one with each
    [addResult] and with nothing else, so that after a [clearAll] it is the
    number of [addResult] calls made since. *)
Theorem nextId_counts_addResult (st : State) (before cs : list Call) :
  Forall (fun c => is_clearAll c = false) cs ->
  nextId (run st cs).1 = (nextId st + N.of_nat (count_adds cs))%N /\
  nextId (run st (before ++ CallClearAll :: cs)).1 = N.of_nat (count_adds cs).
Proof.
  intros Hcs.
  assert (Hgen : forall st', nextId (run st' cs).1
                             = (nextId st' + N.of_nat (count_adds cs))%N).
  { induction Hcs as [|c cs' Hc Hcs' IH]; intros st'.
    - unfold count_adds. simpl. lia.
    - rewrite run_cons. cbn [fst]. rewrite IH, (call_nextId st' c Hc).
      rewrite count_adds_cons. destruct (is_addResult c); lia. }
  split; [apply Hgen|].
  rewrite run_app, run_cons, call_clearAll. cbn [fst]. rewrite Hgen.
  reflexivity.
Qed.

Lemma nextId_counts_addResult_witness :
  nextId (run init sample_calls).1 = 4%N /\
  nextId (run init ([sample_add; sample_add] ++ CallClearAll :: sample_calls)).1
    = 4%N.
Proof.
  apply (nextId_counts_addResult init [sample_add; sample_add] sample_calls).
  repeat constructor.
Defined.

(** X17. In every state the actor can reach, the store holds at most as
    many records as the counter says. *)
Theorem size_at_most_nextId (st : State) :
  reachable st -> (N.of_nat (size (results st)) <= nextId st)%N.
Proof.
  intros [cs <-].
  assert (Hgen : forall st, inv st ->
            (N.of_nat (size (results st)) <= nextId st)%N ->
            (N.of_nat (size (results (run st cs).1)) <= nextId (run st cs).1)%N).
  { induction cs as [|c cs IH]; intros st Hinv Hle; [exact Hle|].
    rewrite run_cons. cbn [fst]. apply IH; [apply inv_call, Hinv|].
    destruct (is_clearAll c) eqn:Hc.
    - destruct c; try discriminate Hc. cbn. rewrite map_size_empty. lia.
    - pose proof (call_size st c Hinv Hc) as Hsize.
      rewrite (call_nextId st c Hc).
      destruct (is_ReplyUnit (call st c).2), (is_addResult c); lia. }
  apply Hgen; [apply inv_init|]. cbn. rewrite map_size_empty. lia.
Qed.

Lemma size_at_most_nextId_witness :
  (N.of_nat (size (results (run init sample_calls).1))
   <= nextId (run init sample_calls).1)%N.
Proof.
  apply (size_at_most_nextId (run init sample_calls).1).
  exists sample_calls. reflexivity.
Defined.

Lemma run_delete_calls l : forall st,
  NoDup (id <$> l) ->
  (forall k, is_Some (results st !! k) <-> k ∈ id <$> l) ->
  run st (delete_calls l)
  = ({| results := ∅; nextId := nextId st |}, replicate (length l) ReplyUnit).
Proof.
  induction l as [|r l IH]; intros st Hnd Hkeys.
  - cbn. f_equal. destruct st as [m n]. cbn [results nextId] in *. f_equal.
    apply map_empty. intros k. apply eq_None_not_Some. rewrite Hkeys.
    apply not_elem_of_nil.
  - rewrite fmap_cons in Hnd, Hkeys. apply NoDup_cons in Hnd.
    destruct Hnd as [Hnotin Hnd].
    unfold delete_calls. rewrite fmap_cons, run_cons. fold (delete_calls l).
    cbn [call]. unfold deleteResult.
    rewrite (proj2 (Map_containsKey_true _ _)) by (apply Hkeys; left).
    cbn [negb commit fst snd]. rewrite IH.
    + reflexivity.
    + exact Hnd.
    + intros k. cbn [results]. rewrite lookup_delete_is_Some, Hkeys, elem_of_cons.
      split.
      * intros [Hne [Heq|Hin]]; [congruence|exact Hin].
      * intros Hin. split; [|right; exact Hin]. intros Heq. apply Hnotin.
        rewrite Heq. exact Hin.
Qed.

(** X18. In a state the actor can reach, deleting the records that
    [getResults] lists, each once and in any order, goes through every time and
    leaves the store empty; unlike [clearAll], it leaves the counter where it
    was. *)
Theorem deleting_every_listed_record (st : State) (l : list StudentResult) :
  reachable st ->
  l ≡ₚ sort (Map_values (results st)) ->
  run st (delete_calls l)
  = ({| results := ∅; nextId := nextId st |}, replicate (length l) ReplyUnit).
Proof.
  intros Hreach Hl. apply reachable_inv in Hreach. apply run_delete_calls.
  - rewrite Hl. apply listing_ids_NoDup, Hreach.
  - intros k. rewrite Hl. symmetry. apply listed_ids, Hreach.
Qed.

Lemma deleting_every_listed_record_witness :
  exists l, getResults (run init sample_calls).1
              = Ok l (run init sample_calls).1 /\
    run (run init sample_calls).1 (delete_calls (reverse l))
    = ({| results := ∅; nextId := 4 |}, [ReplyUnit; ReplyUnit; ReplyUnit]).
Proof.
  eexists. split; [reflexivity|].
  apply (deleting_every_listed_record (run init sample_calls).1).
  - exists sample_calls. reflexivity.
  - apply reverse_Permutation.
Defined.

(** X19. Calls of [getResults] change nothing: a sequence of calls leads to
    the state, and assigns the ids, that it leads to and assigns without
    them. *)
Theorem getResults_changes_nothing (st : State) (cs : list Call) :
  (run st cs).1 = (run st (updates cs)).1 /\
  assigned_ids (run st cs).2 = assigned_ids (run st (updates cs)).2.
Proof.
  revert st. induction cs as [|c cs IH]; intros st; [split; reflexivity|].
  unfold updates. cbn [List.filter]. fold (updates cs).
  destruct (is_getResults c) eqn:Hc; cbn [negb].
  - destruct c; try discriminate Hc. rewrite run_cons. cbn [call commit getResults fst snd].
    rewrite assigned_ids_cons. cbn [assigned_ids omap app]. apply IH.
  - rewrite !run_cons. cbn [fst snd].
    rewrite (assigned_ids_cons _ (run _ cs).2),
            (assigned_ids_cons _ (run _ (updates cs)).2).
    destruct (IH (call st c).1) as [-> ->]. split; reflexivity.
Qed.

End more_store.

(** ** The mutation of [useAddResult] *)

Section more_queries.
Import JS Queries.

Lemma BigInt_is_Some x : is_Some (BigInt x) <-> isInteger x = true.
Proof.
  destruct x as [s|s| |s m e]; cbn [BigInt isInteger].
  - split; [reflexivity|eauto].
  - split; [intros [? ?]; discriminate|discriminate].
  - split; [intros [? ?]; discriminate|discriminate].
  - fold (isInteger (S754_finite s m e)).
    destruct (isInteger (S754_finite s m e)).
    + split; [reflexivity|eauto].
    + split; [intros [? ?]; discriminate|discriminate].
Qed.

Lemma toBigInt_inr v :
  (exists z, toBigInt v = inr z) <->
  exists x, v = Some x /\ isInteger x = true.
Proof.
  unfold toBigInt. destruct v as [x|].
  - pose proof (BigInt_is_Some x) as Hx.
    destruct (BigInt x) as [z|]; split.
    + intros _. exists x. split; [reflexivity|]. apply Hx. eauto.
    + intros _. eauto.
    + intros [z Hz]. discriminate.
    + intros (x' & [= <-] & Hi). apply Hx in Hi. destruct Hi. discriminate.
  - split; [intros [z Hz]; discriminate|intros (x & Hx & _); discriminate].
Qed.

(** X20. The mutation of [useAddResult] throws "Actor not ready" when there
    is no actor, whatever the parameters. With an actor it reaches the call of
    [addResult] exactly when the five marks and the total are all there and
    are whole numbers; the texts, the average and the grade are then passed on
    as they are, with the time of the call as the timestamp. *)
Theorem addResult_mutationFn_reaches_actor (actor : bool) (now : Z)
    (p : AddParams) :
  (actor = false ->
   addResult_mutationFn actor now p = inl (Error (lit "Actor not ready"))) /\
  ((exists a, addResult_mutationFn actor now p = inr a) <->
   actor = true /\
   Forall (fun v => exists x, v = Some x /\ isInteger x = true)
     [maths p; science p; english p; tamil p; computerScience p;
      Some (total p)]) /\
  (forall a, addResult_mutationFn actor now p = inr a ->
     arg_rollNumber a = rollNumber p /\ arg_studentName a = studentName p /\
     arg_average a = average p /\ arg_grade a = grade p /\
     arg_timestamp a = now /\
     toBigInt (maths p) = inr (arg_maths a) /\
     toBigInt (science p) = inr (arg_science a) /\
     toBigInt (english p) = inr (arg_english a) /\
     toBigInt (tamil p) = inr (arg_tamil a) /\
     toBigInt (computerScience p) = inr (arg_computerScience a) /\
     toBigInt (Some (total p)) = inr (arg_total a)).
Proof.
  split; [intros ->; reflexivity|].
  unfold addResult_mutationFn. destruct actor; cbn [negb].
  2:{ split; [|intros a Ha; discriminate Ha].
      split; [intros [a Ha]; discriminate Ha|intros [Ha _]; discriminate Ha]. }
  rewrite !Forall_cons, Forall_nil.
  rewrite <- !toBigInt_inr.
  destruct (toBigInt (maths p)) as [t1|z1]; cbn [bind].
  { split; [|intros a Ha; discriminate Ha].
    split; [intros [a Ha]; discriminate Ha|].
    intros (_ & [z Hz] & _). discriminate Hz. }
  destruct (toBigInt (science p)) as [t2|z2]; cbn [bind].
  { split; [|intros a Ha; discriminate Ha].
    split; [intros [a Ha]; discriminate Ha|].
    intros (_ & _ & [z Hz] & _). discriminate Hz. }
  destruct (toBigInt (english p)) as [t3|z3]; cbn [bind].
  { split; [|intros a Ha; discriminate Ha].
    split; [intros [a Ha]; discriminate Ha|].
    intros (_ & _ & _ & [z Hz] & _). discriminate Hz. }
  destruct (toBigInt (tamil p)) as [t4|z4]; cbn [bind].
  { split; [|intros a Ha; discriminate Ha].
    split; [intros [a Ha]; discriminate Ha|].
    intros (_ & _ & _ & _ & [z Hz] & _). discriminate Hz. }
  destruct (toBigInt (computerScience p)) as [t5|z5]; cbn [bind].
  { split; [|intros a Ha; discriminate Ha].
    split; [intros [a Ha]; discriminate Ha|].
    intros (_ & _ & _ & _ & _ & [z Hz] & _). discriminate Hz. }
  destruct (toBigInt (Some (total p))) as [t6|z6]; cbn [bind].
  { split; [|intros a Ha; discriminate Ha].
    split; [intros [a Ha]; discriminate Ha|].
    intros (_ & _ & _ & _ & _ & _ & [z Hz] & _). discriminate Hz. }
  split.
  - split; [|eauto]. intros _. split; [reflexivity|]. repeat split; eauto.
  - intros a [= <-]. cbn. repeat split; reflexivity.
Qed.

End more_queries.
